(** * Credential and presentation verification of the Dock SDK

    A shallow embedding of the verification code of the SDK: suite selection,
    revocation evaluation, credential and presentation verification and
    credential-schema validation (the functions of [utils/vc], which the
    sources carry in [src/modules/schema.js] after the [Schema] class), and
    the schema import [updateSchemaValidatorWithSchemas] of the [Schema] class,
    with the properties of the verification pipeline proved over it.

    JavaScript documents are embedded as JSON values, [async] functions as a
    writer monad that records every delegated call, and exceptions as an
    explicit outcome. *)

From Stdlib Require Import String Ascii List ZArith Bool Lia DecimalString.
Import ListNotations.
Local Open Scope list_scope.
Local Open Scope string_scope.
#[local] Set Warnings "-register-all".

(** ** JSON values *)

(** Numbers are the integers among the JavaScript numbers.  Objects keep their
    members in insertion order; a key occurs at most once in an object built by
    [obj_set]. *)
Inductive value : Type :=
| VUndef
| VNull
| VBool (b : bool)
| VNum (n : Z)
| VStr (s : string)
| VArr (l : list value)
| VObj (o : list (string * value)).

Definition obj : Type := list (string * value).

(** ** Exceptions and outcomes *)

(** [JsError] is [new Error(msg)] thrown by the SDK, [TypeError] the engine's
    error for a property read on [null]/[undefined] or a call of a non-function,
    [ValidationError] the error of the jsonschema package, whose [toString]
    prints the property followed by the message. *)
Inductive error : Type :=
| JsError (msg : string)
| TypeError (msg : string)
| ValidationError (property message : string).

Inductive outcome (A : Type) : Type :=
| Ok (a : A)
| Throw (e : error).
Arguments Ok {A} a.
Arguments Throw {A} e.

(** The calls that the SDK delegates: to the vc-js verifiers, to the node, to
    the schema validator and to the web. *)
Inductive event : Type :=
| EvVerifyCredential (credential : value)
| EvVerifyPresentation (presentation : value)
| EvGetIsRevoked (registryId revocationId : string)
| EvBlobGet (hexId : string)
| EvValidate (instance schema : value)
| EvFetch (url : string).

(** The writer monad of an [async] function: the calls made so far and the
    outcome. *)
Definition M (A : Type) : Type := (list event * outcome A)%type.

Definition ret {A} (a : A) : M A := ([], Ok a).
Definition throw {A} (e : error) : M A := ([], Throw e).
Definition lift {A} (o : outcome A) : M A := ([], o).
Definition call {A} (ev : event) (o : outcome A) : M A := ([ev], o).

Definition bind {A B} (m : M A) (f : A -> M B) : M B :=
  match m with
  | (l, Ok a) => let (l', r) := f a in ((l ++ l')%list, r)
  | (l, Throw e) => (l, Throw e)
  end.

(** [try { m } catch (e) { h e }] *)
Definition try_catch {A} (m : M A) (h : error -> M A) : M A :=
  match m with
  | (l, Ok a) => (l, Ok a)
  | (l, Throw e) => let (l', r) := h e in ((l ++ l')%list, r)
  end.

Definition calls {A} (m : M A) : list event := fst m.
Definition result {A} (m : M A) : outcome A := snd m.

Declare Scope js_scope.
Delimit Scope js_scope with js.
Notation "x <- m ;; k" := (bind m (fun x => k))
  (at level 61, m at next level, right associativity) : js_scope.
Notation "m ;;; k" := (bind m (fun _ => k))
  (at level 61, right associativity) : js_scope.
Local Open Scope js_scope.

Definition obind {A B} (o : outcome A) (f : A -> outcome B) : outcome B :=
  match o with
  | Ok a => f a
  | Throw e => Throw e
  end.
Notation "x <~ o ;; k" := (obind o (fun x => k))
  (at level 61, o at next level, right associativity) : js_scope.

(** ** The fragment of JavaScript the sources use *)

(** [!!v] *)
Definition truthy (v : value) : bool :=
  match v with
  | VUndef | VNull => false
  | VBool b => b
  | VNum n => negb (Z.eqb n 0)
  | VStr s => negb (String.eqb s EmptyString)
  | VArr _ | VObj _ => true
  end.

Fixpoint lookup (k : string) (o : obj) : option value :=
  match o with
  | [] => None
  | (k', v) :: o' => if String.eqb k k' then Some v else lookup k o'
  end.

Definition member (k : string) (o : obj) : value :=
  match lookup k o with
  | Some v => v
  | None => VUndef
  end.

(** [o[k] = v]: an existing member keeps its place, a new one goes last. *)
Fixpoint obj_set (k : string) (v : value) (o : obj) : obj :=
  match o with
  | [] => [(k, v)]
  | (k', v') :: o' =>
      if String.eqb k k' then (k', v) :: o' else (k', v') :: obj_set k v o'
  end.

(** [delete o[k]] *)
Fixpoint obj_delete (k : string) (o : obj) : obj :=
  match o with
  | [] => []
  | (k', v') :: o' =>
      if String.eqb k k' then obj_delete k o' else (k', v') :: obj_delete k o'
  end.

Definition string_of_nat (n : nat) : string :=
  NilZero.string_of_uint (Nat.to_uint n).

Definition string_of_Z (n : Z) : string :=
  NilZero.string_of_int (Z.to_int n).

(** [v.k] for a name [k] that is not an array index.  Reading a property of
    [null] or [undefined] throws; strings and arrays have a [length]; the other
    primitives have none of the properties read by the sources. *)
Definition get_prop (v : value) (k : string) : outcome value :=
  match v with
  | VUndef => Throw (TypeError ("Cannot read property '" ++ k ++ "' of undefined"))
  | VNull => Throw (TypeError ("Cannot read property '" ++ k ++ "' of null"))
  | VObj o => Ok (member k o)
  | VArr l =>
      if String.eqb k "length" then Ok (VNum (Z.of_nat (List.length l))) else Ok VUndef
  | VStr s =>
      if String.eqb k "length" then Ok (VNum (Z.of_nat (String.length s))) else Ok VUndef
  | VBool _ | VNum _ => Ok VUndef
  end.

(** [v === w] where [w] is a string *)
Definition strict_eq_str (v : value) (s : string) : bool :=
  match v with
  | VStr s' => String.eqb s' s
  | _ => false
  end.

(** [s.startsWith(p)] *)
Definition starts_with (p s : string) : bool := String.prefix p s.

(** [s.slice(n)] for [0 <= n] *)
Definition slice_from (n : nat) (s : string) : string :=
  String.substring n (String.length s - n) s.

(** [v.startsWith(p)]: only a string has the method. *)
Definition method_startsWith (v : value) (p : string) : outcome bool :=
  match v with
  | VStr s => Ok (starts_with p s)
  | VUndef => Throw (TypeError "Cannot read property 'startsWith' of undefined")
  | VNull => Throw (TypeError "Cannot read property 'startsWith' of null")
  | _ => Throw (TypeError "startsWith is not a function")
  end.

(** [v.slice(n)] as a string.  The sources slice a value only after
    [startsWith] succeeded on it, that is a string; the other cases are there
    to make the function total. *)
Definition method_slice (v : value) (n : nat) : outcome string :=
  match v with
  | VStr s => Ok (slice_from n s)
  | VUndef => Throw (TypeError "Cannot read property 'slice' of undefined")
  | VNull => Throw (TypeError "Cannot read property 'slice' of null")
  | _ => Throw (TypeError "slice does not return a string")
  end.

(** [`${v}`] *)
Fixpoint to_string (v : value) : string :=
  match v with
  | VUndef => "undefined"
  | VNull => "null"
  | VBool true => "true"
  | VBool false => "false"
  | VNum n => string_of_Z n
  | VStr s => s
  | VArr l =>
      (fix join (l : list value) : string :=
         match l with
         | [] => EmptyString
         | x :: rest =>
             let sx := match x with
                       | VUndef | VNull => EmptyString
                       | _ => to_string x
                       end in
             match rest with
             | [] => sx
             | _ :: _ => sx ++ "," ++ join rest
             end
         end) l
  | VObj _ => "[object Object]"
  end.

(** [`${e}`] for a caught exception *)
Definition error_to_string (e : error) : string :=
  match e with
  | JsError msg => "Error: " ++ msg
  | TypeError msg => "TypeError: " ++ msg
  | ValidationError property message => property ++ " " ++ message
  end.

(** [Number(v)], [None] standing for [NaN].  Strings are read as plain decimal
    numerals only, and an array or object operand is taken as [NaN]; the
    operand is the [length] member of an array-like object, which is a number
    in every document the SDK produces. *)
Definition to_number (v : value) : option Z :=
  match v with
  | VUndef => None
  | VNull => Some 0%Z
  | VBool true => Some 1%Z
  | VBool false => Some 0%Z
  | VNum n => Some n
  | VStr s =>
      if String.eqb s EmptyString then Some 0%Z
      else match NilZero.uint_of_string s with
           | Some u => Some (Z.of_nat (Nat.of_uint u))
           | None => None
           end
  | VArr _ | VObj _ => None
  end.

Definition chars (s : string) : list value :=
  map (fun c => VStr (String c EmptyString)) (list_ascii_of_string s).

Definition indexed (l : list value) : obj :=
  combine (map string_of_nat (seq 0 (List.length l))) l.

(** [{...v}]: the own enumerable members of [v]. *)
Definition spread (v : value) : obj :=
  match v with
  | VObj o => o
  | VArr l => indexed l
  | VStr s => indexed (chars s)
  | VUndef | VNull | VBool _ | VNum _ => []
  end.

(** The values [v[0]], [v[1]], ... visited by
    [for (let i = 0; i < v.length; i++)]. *)
Definition elements (v : value) : list value :=
  match v with
  | VArr l => l
  | VStr s => chars s
  | VObj o =>
      match to_number (member "length" o) with
      | Some n => map (fun i => member (string_of_nat i) o) (seq 0 (Z.to_nat n))
      | None => []
      end
  | VUndef | VNull | VBool _ | VNum _ => []
  end.

(** [v[k] = x] in strict mode.  Named members of an array are not
    represented. *)
Definition assign (v : value) (k : string) (x : value) : outcome value :=
  match v with
  | VObj o => Ok (VObj (obj_set k x o))
  | VArr l => Ok (VArr l)
  | VUndef => Throw (TypeError ("Cannot set property '" ++ k ++ "' of undefined"))
  | VNull => Throw (TypeError ("Cannot set property '" ++ k ++ "' of null"))
  | VBool _ | VNum _ | VStr _ =>
      Throw (TypeError ("Cannot create property '" ++ k ++ "' on a primitive"))
  end.

(** [required.indexOf('id') > -1] for a truthy [required]: membership for an
    array, occurrence for a string; nothing else has the method. *)
Definition indexOf_id (required : value) : outcome bool :=
  match required with
  | VArr l => Ok (existsb (fun x => strict_eq_str x "id") l)
  | VStr s => Ok (match String.index 0 "id" s with Some _ => true | None => false end)
  | _ => Throw (TypeError "indexOf is not a function")
  end.

(** ** Collaborators *)

(** The node API that [revocationApi.dock] and [schemaApi.dock] hold:
    [revocation.getIsRevoked(registryId, revokeId)] of the revocation module
    and [blob.get(hexId)], which answers the author and the stored bytes. *)
Record DockAPI : Type := {
  getIsRevoked : string -> string -> outcome bool;
  blob_get : string -> outcome (list Byte.byte * list Byte.byte)
}.

(** The map "type -> API" passed as [revocationApi] or [schemaApi]; only the
    [dock] entry is read.  [{}] is [{| dock := None |}]. *)
Record Api : Type := { dock : option DockAPI }.

Inductive Resolver : Type := DIDResolver (providers : list (string * string)).

(** What the SDK imports from packages and from modules that are not among the
    sources: the vc-js verifiers, the jsonschema validator, the hash, the hex
    test of [utils/codec] and the conversions used by [Schema.get]. *)
Record Env : Type := {
  vcjs_verifyCredential : value -> option Resolver -> bool -> outcome value;
  vcjs_verify : value -> value -> value -> option Resolver -> bool -> outcome value;
  validate : value -> value -> outcome unit;
  blake2AsHex : value -> nat -> string;
  isHexWithGivenByteSize : string -> nat -> bool;
  getHexIdentifierFromBlobID : value -> outcome string;
  u8aToString : list Byte.byte -> string;
  u8aToHex : list Byte.byte -> string;
  hexDIDToQualified : string -> string;
  JSON_parse : string -> outcome value
}.

(** The options object of [verifyCredential] and [verifyPresentation]. *)
Record VerifiableParams : Type := {
  challenge : value;
  domain : value;
  resolver : option Resolver;
  compactProof : bool;
  forceRevocationCheck : bool;
  revocationApi : option Api;
  schemaApi : option Api
}.

(** The defaults of the destructured parameter. *)
Definition default_params : VerifiableParams :=
  {| challenge := VUndef; domain := VUndef; resolver := None;
     compactProof := true; forceRevocationCheck := true;
     revocationApi := None; schemaApi := None |}.

(** ** Constants *)

Definition RevRegType : string := "CredentialStatusList2017".
Definition DockRevRegQualifier : string := "rev-reg:dock:".

(** [RevRegIdByteSize] and [RevEntryByteSize] of [utils/revocation]: the node
    types [RegistryId] and [RevokeId] of [types.json] are [[u8;32]]. *)
Definition RevRegIdByteSize : nat := 32.
Definition RevEntryByteSize : nat := 32.

(** The key type names of [utils/vc/custom_crypto], as the key documents of
    [tests/integration/issuing.test.js] spell them. *)
Definition EcdsaSecp256k1VerKeyName : string := "EcdsaSecp256k1VerificationKey2019".
Definition Ed25519VerKeyName : string := "Ed25519VerificationKey2018".
Definition Sr25519VerKeyName : string := "Sr25519VerificationKey2020".

(** ** Suite selector *)

Inductive SuiteClass : Type :=
| EcdsaSepc256k1Signature2019
| Ed25519Signature2018
| Sr25519Signature2020.

(** Modelled from the spec: the suite classes of [utils/vc/custom_crypto] are
    not among the sources.  A suite binds the options it is constructed with,
    among them the verification method. *)
Record Suite : Type := {
  suite_class : SuiteClass;
  suite_options : obj
}.

Definition verificationMethod (s : Suite) : value :=
  member "verificationMethod" (suite_options s).

Definition getSuiteFromKeyDoc (keyDoc : value) : outcome Suite :=
  type <~ get_prop keyDoc "type" ;;
  Cls <~ (if strict_eq_str type EcdsaSecp256k1VerKeyName then Ok EcdsaSepc256k1Signature2019
          else if strict_eq_str type Ed25519VerKeyName then Ok Ed25519Signature2018
          else if strict_eq_str type Sr25519VerKeyName then Ok Sr25519Signature2020
          else Throw (JsError ("Unknown key type " ++ to_string type ++ "."))) ;;
  id <~ get_prop keyDoc "id" ;;
  Ok {| suite_class := Cls;
        suite_options := obj_set "verificationMethod" id (spread keyDoc) |}.

(** ** Revocation evaluator *)

Definition is_supplied {A} (o : option A) : bool :=
  match o with
  | Some _ => true
  | None => false
  end.

(** [x.dock] for an API map [x] that may be [null] *)
Definition api_dock (x : option Api) : outcome (option DockAPI) :=
  match x with
  | None => Throw (TypeError "Cannot read property 'dock' of null")
  | Some a => Ok (dock a)
  end.

Section WithEnv.
Variable E : Env.

(** The value of the [&&] chain: the falsy [credentialStatus] itself, or a
    boolean. *)
Definition hasDockRevocation (credential : value) : outcome value :=
  credentialStatus <~ get_prop credential "credentialStatus" ;;
  if negb (truthy credentialStatus) then Ok credentialStatus
  else
    type <~ get_prop credentialStatus "type" ;;
    if negb (strict_eq_str type RevRegType) then Ok (VBool false)
    else
      id <~ get_prop credentialStatus "id" ;;
      qualified <~ method_startsWith id DockRevRegQualifier ;;
      if negb qualified then Ok (VBool false)
      else
        rest <~ method_slice id (String.length DockRevRegQualifier) ;;
        Ok (VBool (isHexWithGivenByteSize E rest RevRegIdByteSize)).

Definition isRevocationCheckNeeded
    (credStatus : value) (forceRevocationCheck : bool) (revocationApi : option Api) : bool :=
  truthy credStatus && (forceRevocationCheck || is_supplied revocationApi).

Definition getDockRevIdFromCredential (credential : value) : outcome string :=
  id <~ get_prop credential "id" ;;
  Ok (blake2AsHex E id (RevEntryByteSize * 8)).

Definition verdict_bad_format : value :=
  VObj [("verified", VBool false);
        ("error", VStr "The credential status does not have the format required by Dock")].
Definition verdict_revoked : value :=
  VObj [("verified", VBool false); ("error", VStr "Revocation check failed")].
Definition verdict_not_revoked : value :=
  VObj [("verified", VBool true)].

Definition checkRevocationStatus (credential : value) (revocationApi : option Api) : M value :=
  d <- lift (api_dock revocationApi) ;;
  match d with
  | None => throw (JsError "Only Dock revocation support is present as of now.")
  | Some dockAPI =>
      formatted <- lift (hasDockRevocation credential) ;;
      if negb (truthy formatted) then ret verdict_bad_format
      else
        credentialStatus <- lift (get_prop credential "credentialStatus") ;;
        id <- lift (get_prop credentialStatus "id") ;;
        regId <- lift (method_slice id (String.length DockRevRegQualifier)) ;;
        revId <- lift (getDockRevIdFromCredential credential) ;;
        revocationStatus <- call (EvGetIsRevoked regId revId) (getIsRevoked dockAPI regId revId) ;;
        if (revocationStatus : bool) then ret verdict_revoked
        else ret verdict_not_revoked
  end.

(** ** Credential schemas *)

(** [Schema.get(id, dockApi)], of the [Schema] class that has [get]. *)
Definition Schema_get (id : value) (dockApi : DockAPI) : M value :=
  hexId <- lift (getHexIdentifierFromBlobID E id) ;;
  chainBlob <- call (EvBlobGet hexId) (blob_get dockApi hexId) ;;
  let blobStr := u8aToString E (snd chainBlob) in
  try_catch
    (schema <- lift (JSON_parse E blobStr) ;;
     schema1 <- lift (assign schema "id" id) ;;
     schema2 <- lift (assign schema1 "author"
                        (VStr (hexDIDToQualified E (u8aToHex E (fst chainBlob))))) ;;
     ret schema2)
    (fun e => throw (JsError ("Incorrect schema format: " ++ error_to_string e))).

(** The body of the loop of [validateCredentialSchema] for [subjects[i]]. *)
Definition validate_subject (requiresID : bool) (schema : value) (x : value) : M unit :=
  let subject := spread x in
  let subject := if negb requiresID then obj_delete "id" subject else subject in
  inner <- lift (get_prop schema "schema") ;;
  call (EvValidate (VObj subject) (if truthy inner then inner else schema))
       (validate E (VObj subject) (if truthy inner then inner else schema)).

Fixpoint validate_subjects (requiresID : bool) (schema : value) (subjects : list value) : M unit :=
  match subjects with
  | [] => ret tt
  | x :: rest =>
      validate_subject requiresID schema x ;;;
      validate_subjects requiresID schema rest
  end.

(** The [subjects] that the loop of [validateCredentialSchema] visits. *)
Definition credential_subjects (credential : value) : outcome (list value) :=
  cs <~ get_prop credential "credentialSubject" ;;
  let credentialSubject := if truthy cs then cs else VArr [] in
  len <~ get_prop credentialSubject "length" ;;
  let subjects := if truthy len then credentialSubject else VArr [credentialSubject] in
  Ok (elements subjects).

Definition validateCredentialSchema (credential schema : value) : M bool :=
  required <- lift (get_prop schema "required") ;;
  requiresID <- lift (if truthy required then indexOf_id required else Ok false) ;;
  subjects <- lift (credential_subjects credential) ;;
  validate_subjects requiresID schema subjects ;;;
  ret true.

Definition getAndValidateSchemaIfPresent (credential : value) (schemaApi : option Api) : M unit :=
  match schemaApi with
  | None => ret tt
  | Some api =>
      credentialSubject <- lift (get_prop credential "credentialSubject") ;;
      credentialSchema <- lift (get_prop credential "credentialSchema") ;;
      if truthy credentialSubject && truthy credentialSchema then
        match dock api with
        | None => throw (JsError "Only Dock schemas are supported as of now.")
        | Some dockApi =>
            try_catch
              (id <- lift (get_prop credentialSchema "id") ;;
               schema <- Schema_get id dockApi ;;
               validateCredentialSchema credential schema ;;;
               ret tt)
              (fun e => throw (JsError ("Schema validation failed: " ++ error_to_string e)))
        end
      else ret tt
  end.

(** ** Credential verifier *)

Definition verifyCredential (credential : value) (params : VerifiableParams) : M value :=
  getAndValidateSchemaIfPresent credential (schemaApi params) ;;;
  credVer <- call (EvVerifyCredential credential)
                  (vcjs_verifyCredential E credential (resolver params) (compactProof params)) ;;
  verified <- lift (get_prop credVer "verified") ;;
  if truthy verified then
    credentialStatus <- lift (get_prop credential "credentialStatus") ;;
    if isRevocationCheckNeeded credentialStatus (forceRevocationCheck params) (revocationApi params)
    then
      revResult <- checkRevocationStatus credential (revocationApi params) ;;
      revVerified <- lift (get_prop revResult "verified") ;;
      if negb (truthy revVerified) then ret revResult else ret credVer
    else ret credVer
  else ret credVer.

Definition isVerifiedCredential (credential : value) (params : VerifiableParams) : M value :=
  r <- verifyCredential credential params ;;
  lift (get_prop r "verified").

(** ** Presentation verifier *)

(** The revocation part of one turn of the loop of [verifyPresentation]:
    [Some res] when the loop returns [res]. *)
Definition presentation_revocation_step (credential : value) (params : VerifiableParams)
  : M (option value) :=
  credentialStatus <- lift (get_prop credential "credentialStatus") ;;
  if isRevocationCheckNeeded credentialStatus (forceRevocationCheck params) (revocationApi params)
  then
    res <- checkRevocationStatus credential (revocationApi params) ;;
    resVerified <- lift (get_prop res "verified") ;;
    if negb (truthy resVerified) then ret (Some res) else ret None
  else ret None.

(** One turn of the loop. *)
Definition presentation_credential_step (credential : value) (params : VerifiableParams)
  : M (option value) :=
  r <- presentation_revocation_step credential params ;;
  match r with
  | Some res => ret (Some res)
  | None => getAndValidateSchemaIfPresent credential (schemaApi params) ;;; ret None
  end.

Fixpoint presentation_credentials_loop (credentials : list value) (params : VerifiableParams)
  : M (option value) :=
  match credentials with
  | [] => ret None
  | credential :: rest =>
      r <- presentation_credential_step credential params ;;
      match r with
      | Some res => ret (Some res)
      | None => presentation_credentials_loop rest params
      end
  end.

Definition verifyPresentation (presentation : value) (params : VerifiableParams) : M value :=
  presVer <- call (EvVerifyPresentation presentation)
                  (vcjs_verify E presentation (challenge params) (domain params)
                     (resolver params) (compactProof params)) ;;
  verified <- lift (get_prop presVer "verified") ;;
  if truthy verified then
    credentials <- lift (get_prop presentation "verifiableCredential") ;;
    lift (get_prop credentials "length") ;;;
    r <- presentation_credentials_loop (elements credentials) params ;;
    match r with
    | Some res => ret res
    | None => ret presVer
    end
  else ret presVer.

End WithEnv.

(** ** Schema import ([src/modules/schema.js]) *)

Definition BlobQualifier : string := "blob:dock:".

(** The working validator of the jsonschema package: the registered schemas by
    identifier and the worklist of unresolved references. *)
Record Validator : Type := {
  schemas : obj;
  unresolvedRefs : list string
}.

Definition is_undefined (v : value) : bool :=
  match v with
  | VUndef => true
  | _ => false
  end.

Definition unregistered (registered : obj) (uri : string) : bool :=
  is_undefined (member uri registered).

(** A table of documents read as a web: what a locator of the table answers,
    and a network error for any other locator. *)
Fixpoint web_lookup (url : string) (w : list (string * outcome value)) : outcome value :=
  match w with
  | [] => Throw (JsError "Network Error")
  | (u, r) :: w' => if String.eqb url u then r else web_lookup url w'
  end.

Section SchemaImport.

(** What the jsonschema package finds in a schema document: the sub-schemas by
    the identifier they declare, and the identifiers the document refers to. *)
Variable scan : value -> obj * list string.

(** Whether [new URL(s)] succeeds. *)
Variable parses_as_URL : string -> bool.

(** What a GET of a locator answers, read as JSON, at the time of the call:
    any locator may be answered, and by any document. *)
Variable web : string -> outcome value.

(** Modelled from the spec: [Validator.addSchema] belongs to the jsonschema
    package, which is not among the sources.  The state "holds the set of
    already-merged schema identifiers and a worklist of unresolved references",
    adding a schema registers it and queues its references, and "a reference is
    never re-queued once registered".  A falsy schema is not added. *)
Definition addSchema (v : Validator) (schema : value) : Validator :=
  if negb (truthy schema) then v
  else
    let (ids, refs) := scan schema in
    let registered := fold_left (fun acc kv => obj_set (fst kv) (snd kv) acc) ids (schemas v) in
    {| schemas := registered;
       unresolvedRefs :=
         filter (unregistered registered)
                (unresolvedRefs v ++ nodup string_dec refs)%list |}.

(** Modelled from the spec: [fetchJSONFromUrl] of [utils/misc] is not among the
    sources.  It performs a GET and parses the body as JSON, and fails if the
    response is neither JSON-typed nor JSON-parseable. *)
Definition fetchJSONFromUrl (url : string) : M value :=
  call (EvFetch url) (web url).

(** [Schema.getSchema(id, dockApi)] *)
Definition getSchema (id : string) (dockApi : DockAPI) : M value :=
  if String.eqb id "invalid-format" then throw (JsError "Incorrect schema format")
  else if String.eqb id "invalid-id" then throw (JsError ("Invalid schema id " ++ id))
  else ret (VObj []).

Definition resolveSchema (schemaId : string) (schemaAPI : option Api) : M value :=
  (if parses_as_URL schemaId then ret tt
   else if negb (starts_with BlobQualifier schemaId)
        then throw (JsError ("Schema id should begin with " ++ BlobQualifier))
        else
          d <- lift (api_dock schemaAPI) ;;
          match d with
          | None => throw (JsError "Only Dock schema support is present as of now.")
          | Some dockAPI => getSchema schemaId dockAPI ;;; ret tt
          end) ;;;
  fetchJSONFromUrl schemaId.

(** The rewriting of an identifier like [blob:dock/:...] to [blob:dock:...]. *)
Definition canonical_id (nextSchemaId : string) : string :=
  if starts_with "blob:dock/:" nextSchemaId
  then BlobQualifier ++ slice_from (String.length "blob:dock/:") nextSchemaId
  else nextSchemaId.

(** Whether a reference falls under [`${initialSchemaId}#/$defs`]. *)
Definition own_definition (initialSchemaId nextSchemaId : string) : bool :=
  starts_with (initialSchemaId ++ "#/$defs") (canonical_id nextSchemaId).

Definition shifted (v : Validator) (rest : list string) : Validator :=
  {| schemas := schemas v; unresolvedRefs := rest |}.

(** The recursion of [importNextSchema], bounded by [fuel]: [None] when the
    bound is reached, otherwise the validator as the call leaves it, the calls
    made and the outcome. *)
Fixpoint importNextSchema (fuel : nat) (initialSchemaId : string) (schemaAPI : option Api)
    (validator : Validator) : option (Validator * M unit) :=
  match fuel with
  | O => None
  | S fuel' =>
      match unresolvedRefs validator with
      | [] => Some (validator, ret tt)
      | next :: rest =>
          let validator1 := shifted validator rest in
          if String.eqb next EmptyString then Some (validator1, ret tt)
          else if negb (own_definition initialSchemaId next) then
            match resolveSchema (canonical_id next) schemaAPI with
            | (l, Ok nextSchema) =>
                match importNextSchema fuel' initialSchemaId schemaAPI
                        (addSchema validator1 nextSchema) with
                | Some (v', (l', r)) => Some (v', ((l ++ l')%list, r))
                | None => None
                end
            | (l, Throw e) => Some (validator1, (l, Throw e))
            end
          else importNextSchema fuel' initialSchemaId schemaAPI validator1
      end
  end.

Definition updateSchemaValidatorWithSchemas (fuel : nat) (validator : Validator)
    (initialSchema : value) (schemaAPI : option Api) : option (Validator * M unit) :=
  let validator1 := addSchema validator initialSchema in
  match get_prop initialSchema "id" with
  | Throw e => Some (validator1, throw e)
  | Ok id =>
      let initialSchemaId := if truthy id then to_string id else "/" in
      importNextSchema fuel initialSchemaId schemaAPI validator1
  end.

(** *** The worklist with the identifiers taken from it *)

(** A validator on its way through the import, with the identifiers that
    have been taken from its worklist so far, the latest first. *)
Record Config : Type := {
  cfg_validator : Validator;
  cfg_taken : list string
}.

(** The references that adding [nextSchema] leaves unresolved. *)
Definition new_refs (v : Validator) (nextSchema : value) : list string :=
  if negb (truthy nextSchema) then []
  else filter (unregistered (schemas (addSchema v nextSchema)))
              (nodup string_dec (snd (scan nextSchema))).

(** One turn of [importNextSchema]; [None] when it returns or throws. *)
Definition import_step (initialSchemaId : string) (schemaAPI : option Api) (c : Config)
  : option Config :=
  match unresolvedRefs (cfg_validator c) with
  | [] => None
  | next :: rest =>
      let validator1 := shifted (cfg_validator c) rest in
      if String.eqb next EmptyString then None
      else if negb (own_definition initialSchemaId next) then
        match resolveSchema (canonical_id next) schemaAPI with
        | (_, Ok nextSchema) =>
            Some {| cfg_validator := addSchema validator1 nextSchema;
                    cfg_taken := next :: cfg_taken c |}
        | (_, Throw _) => None
        end
      else Some {| cfg_validator := validator1; cfg_taken := next :: cfg_taken c |}
  end.

Inductive import_reaches (initialSchemaId : string) (schemaAPI : option Api) (c0 : Config)
  : Config -> Prop :=
| reaches_start : import_reaches initialSchemaId schemaAPI c0 c0
| reaches_step c c' :
    import_reaches initialSchemaId schemaAPI c0 c ->
    import_step initialSchemaId schemaAPI c = Some c' ->
    import_reaches initialSchemaId schemaAPI c0 c'.

(** The schema resolved in this turn leaves no identifier unresolved that
    has been taken from the worklist already, the one just resolved
    included. *)
Definition introduces_only_new (initialSchemaId : string) (schemaAPI : option Api) (c : Config)
  : Prop :=
  match unresolvedRefs (cfg_validator c) with
  | [] => True
  | next :: rest =>
      if String.eqb next EmptyString then True
      else if negb (own_definition initialSchemaId next) then
        match resolveSchema (canonical_id next) schemaAPI with
        | (_, Ok nextSchema) =>
            forall x, In x (new_refs (shifted (cfg_validator c) rest) nextSchema) ->
                      ~ In x (next :: cfg_taken c)
        | (_, Throw _) => True
        end
      else True
  end.

Definition initial_id (initialSchema : value) : string :=
  match get_prop initialSchema "id" with
  | Ok id => if truthy id then to_string id else "/"
  | Throw _ => "/"
  end.

Definition initial_config (validator : Validator) (initialSchema : value) : Config :=
  {| cfg_validator := addSchema validator initialSchema; cfg_taken := [] |}.

(** Resolved schemas do not reintroduce already-seen identifiers as new
    unresolved references. *)
Definition no_reintroduction (validator : Validator) (initialSchema : value)
    (schemaAPI : option Api) : Prop :=
  forall c,
    import_reaches (initial_id initialSchema) schemaAPI
                   (initial_config validator initialSchema) c ->
    introduces_only_new (initial_id initialSchema) schemaAPI c.

(** Every unresolved reference of the root schema falls under its own
    definitions. *)
Definition only_own_definitions (validator : Validator) (initialSchema : value) : Prop :=
  (exists id, get_prop initialSchema "id" = Ok id) /\
  Forall (fun ref => own_definition (initial_id initialSchema) ref = true)
         (unresolvedRefs (addSchema validator initialSchema)).

(** *** The identifiers of the import *)

(** Whatever the schema resolved in this turn leaves unresolved is among
    [locators]. *)
Definition introduces_within (locators : list string) (initialSchemaId : string)
    (schemaAPI : option Api) (c : Config) : Prop :=
  match unresolvedRefs (cfg_validator c) with
  | [] => True
  | next :: rest =>
      if String.eqb next EmptyString then True
      else if negb (own_definition initialSchemaId next) then
        match resolveSchema (canonical_id next) schemaAPI with
        | (_, Ok nextSchema) =>
            incl (new_refs (shifted (cfg_validator c) rest) nextSchema) locators
        | (_, Throw _) => True
        end
      else True
  end.

(** The references that the resolved schemas introduce in the course of the
    import are all among the finitely many [locators]. *)
Definition references_within (locators : list string) (validator : Validator)
    (initialSchema : value) (schemaAPI : option Api) : Prop :=
  forall c,
    import_reaches (initial_id initialSchema) schemaAPI
                   (initial_config validator initialSchema) c ->
    introduces_within locators (initial_id initialSchema) schemaAPI c.

End SchemaImport.

(** *** The measure of the import *)

Definition held (l : list string) (ref : string) : bool :=
  existsb (String.eqb ref) l.

(** How many of the [locators] have not been taken from the worklist. *)
Definition untaken (locators taken : list string) : nat :=
  List.length (filter (fun ref => negb (held taken ref)) locators).

(** An identifier whose turn does not lower [untaken]: it has been taken
    before, or it is none of the [locators]. *)
Definition stale (locators taken : list string) (ref : string) : bool :=
  held taken ref || negb (held locators ref).

Definition stale_count (locators : list string) (c : Config) : nat :=
  List.length (filter (stale locators (cfg_taken c)) (unresolvedRefs (cfg_validator c))).


(** ** Vocabulary of the statements *)

(** The three recognized key type names. *)
Definition recognized_tag (tag : value) : bool :=
  strict_eq_str tag Ed25519VerKeyName
  || strict_eq_str tag Sr25519VerKeyName
  || strict_eq_str tag EcdsaSecp256k1VerKeyName.

(** The value of [credential.credentialStatus] for a credential that carries
    the status object [status], or none. *)
Definition status_field (status : option obj) : value :=
  match status with
  | Some o => VObj o
  | None => VUndef
  end.

(** [v.k] where the read cannot throw. *)
Definition prop_of (v : value) (k : string) : value :=
  match get_prop v k with
  | Ok x => x
  | Throw _ => VUndef
  end.

Definition status_of (credential : obj) : value := member "credentialStatus" credential.

(** The four ways in which a credential is not revocation-formatted. *)
Inductive not_revocation_formatted (E : Env) (credential : obj) : Prop :=
| status_missing :
    truthy (status_of credential) = false ->
    not_revocation_formatted E credential
| wrong_type_tag :
    truthy (status_of credential) = true ->
    strict_eq_str (prop_of (status_of credential) "type") RevRegType = false ->
    not_revocation_formatted E credential
| wrong_registry_qualifier (id : string) :
    truthy (status_of credential) = true ->
    strict_eq_str (prop_of (status_of credential) "type") RevRegType = true ->
    prop_of (status_of credential) "id" = VStr id ->
    starts_with DockRevRegQualifier id = false ->
    not_revocation_formatted E credential
| remainder_not_hex (id : string) :
    truthy (status_of credential) = true ->
    strict_eq_str (prop_of (status_of credential) "type") RevRegType = true ->
    prop_of (status_of credential) "id" = VStr id ->
    starts_with DockRevRegQualifier id = true ->
    isHexWithGivenByteSize E (slice_from (String.length DockRevRegQualifier) id)
                           RevRegIdByteSize = false ->
    not_revocation_formatted E credential.

(** The credential is revocation-formatted, with status identifier [id]. *)
Definition revocation_formatted (E : Env) (credential : obj) (id : string) : Prop :=
  truthy (status_of credential) = true /\
  strict_eq_str (prop_of (status_of credential) "type") RevRegType = true /\
  prop_of (status_of credential) "id" = VStr id /\
  starts_with DockRevRegQualifier id = true /\
  isHexWithGivenByteSize E (slice_from (String.length DockRevRegQualifier) id)
                         RevRegIdByteSize = true.

(** What [checkRevocationStatus] answers from the reply of the service. *)
Definition revocation_verdict (reply : outcome bool) : outcome value :=
  match reply with
  | Ok true => Ok verdict_revoked
  | Ok false => Ok verdict_not_revoked
  | Throw e => Throw e
  end.

(** *** A credential of a presentation *)








(** The copy of a subject that is handed to the validator. *)
Definition subject_copy (requiresID : bool) (x : value) : value :=
  VObj (if negb requiresID then obj_delete "id" (spread x) else spread x).

(** ** Status helper and boolean projections *)

(** [buildDockCredentialStatus(registryId)] *)
Definition buildDockCredentialStatus (registryId : value) : value :=
  VObj [("id", VStr (DockRevRegQualifier ++ to_string registryId)); ("type", VStr RevRegType)].

Definition isVerifiedPresentation (E : Env) (presentation : value) (params : VerifiableParams)
  : M value :=
  r <- verifyPresentation E presentation params ;;
  lift (get_prop r "verified").

(** ** Issuance *)

Section Issuance.

(** [vcjs.issue] and [vcjs.signPresentation] with the suite, the document and
    the flags they are handed; the document loader is built from the
    resolver. *)
Variable vcjs_issue : Suite -> value -> bool -> outcome value.
Variable vcjs_signPresentation :
  value -> Suite -> value -> value -> bool -> option Resolver -> outcome value.

Definition issueCredential (keyDoc credential : value) (compactProof : bool) : outcome value :=
  suite <~ getSuiteFromKeyDoc keyDoc ;;
  let cred := spread credential in
  controller <~ get_prop keyDoc "controller" ;;
  vcjs_issue suite (VObj (obj_set "issuer" controller cred)) compactProof.

Definition signPresentation (presentation keyDoc challenge domain : value)
    (resolver : option Resolver) (compactProof : bool) : outcome value :=
  suite <~ getSuiteFromKeyDoc keyDoc ;;
  vcjs_signPresentation presentation suite domain challenge compactProof resolver.

End Issuance.

(** ** The [Schema] class with [get] *)

(** [DockBlobIdByteSize] of [modules/blob]: the node type [BlobId] of
    [types.json] is [[u8;32]]. *)
Definition DockBlobIdByteSize : nat := 32.

Section SchemaObject.
Variable E : Env.

(** The stored JSON-Schema specification [JSONSchema07]. *)
Variable JSONSchema07 : value.

(** What [axios.get] answers as [data]: an object when the response is typed
    as JSON, the body as a string otherwise. *)
Variable web : string -> outcome value.

(** [stringToHex(canonicalize(schema))] and [getHexIdentifierFromDID]. *)
Variable canonical_hex : value -> string.
Variable getHexIdentifierFromDID : value -> outcome string.

(** [new Schema(id)], where [generated] is what [createNewDockBlobId()] would
    answer. *)
Definition Schema_new (id : value) (generated : string) : obj :=
  [("id", if truthy id then id else VStr generated)].

Definition setAuthor (this : obj) (did : value) : outcome obj :=
  isDid <~ method_startsWith did "did:" ;;
  if (isDid : bool) || (match did with
                        | VStr d => isHexWithGivenByteSize E d DockBlobIdByteSize
                        | _ => false
                        end)
  then Ok (obj_set "author" did this)
  else Throw (JsError ("Supplied author " ++ to_string did ++ " is not a valid DID or "
                       ++ string_of_nat DockBlobIdByteSize ++ " byte hex string")).

Definition fromJSON (json : value) (generated : string) : outcome obj :=
  id <~ get_prop json "id" ;;
  schema <~ get_prop json "schema" ;;
  author <~ get_prop json "author" ;;
  let schemaObj := Schema_new id generated in
  let schemaObj := if truthy schema then obj_set "schema" schema schemaObj else schemaObj in
  if truthy author then setAuthor schemaObj author else Ok schemaObj.

Definition toJSON (this : obj) : obj := obj_delete "signature" this.

Definition toBlob (this : obj) : outcome obj :=
  if negb (truthy (member "schema" this))
  then Throw (JsError "Schema requires schema property to be serialized to blob")
  else if negb (truthy (member "author" this))
  then Throw (JsError "Schema requires author property to be serialized to blob")
  else
    id <~ getHexIdentifierFromBlobID E (member "id" this) ;;
    let blob := canonical_hex (member "schema" this) in
    author <~ getHexIdentifierFromDID (member "author" this) ;;
    Ok [("id", VStr id); ("blob", VStr blob); ("author", VStr author)].

(** [typeof doc === 'object'] *)
Definition typeof_object (doc : value) : bool :=
  match doc with
  | VObj _ | VArr _ | VNull => true
  | _ => false
  end.

Definition getJSONSchemaSpec (json : value) : M value :=
  schemaUrl <- lift (get_prop json "$schema") ;;
  if truthy schemaUrl then
    if strict_eq_str schemaUrl "http://json-schema.org/draft-07/schema"
       || strict_eq_str schemaUrl "http://json-schema.org/draft-07/schema#"
    then ret JSONSchema07
    else
      doc <- call (EvFetch (to_string schemaUrl)) (web (to_string schemaUrl)) ;;
      if typeof_object doc then ret doc
      else try_catch (lift (JSON_parse E (to_string doc)))
                     (fun _ => throw (JsError "Cannot parse response as JSON"))
  else throw (JsError "$schema not found in the given JSON").

Definition validateSchema (json : value) : M unit :=
  jsonSchemaSpec <- getJSONSchemaSpec json ;;
  call (EvValidate json jsonSchemaSpec) (validate E json jsonSchemaSpec).

Definition setJSONSchema (this : obj) (json : value) : M obj :=
  validateSchema json ;;;
  ret (obj_set "schema" json this).

End SchemaObject.

(** ** Extrinsics *)

(** A call of a node module ([api.tx.revoke], [api.tx.didModule]) with its
    arguments; the SDK returns it for the caller to sign and send. *)
Record Extrinsic : Type := {
  tx_call : string;
  tx_args : list value
}.

(** ** The revocation module *)

Section RevocationModule.

(** [api.query.revoke.registries(id)] and [api.query.revoke.revocations(id,
    revokeId)]: an option, unwrapped to the stored tuple or entry. *)
Variable query_registries : string -> outcome (option (list value)).
Variable query_revocations : string -> string -> outcome (option value).

(** [getStateChange(api, name, payload)] of [utils/misc]. *)
Variable getStateChange : string -> value -> list Byte.byte.

(** [x.toNumber()] of a block number *)
Definition toNumber (x : value) : outcome value :=
  match x with
  | VNum n => Ok (VNum n)
  | VUndef => Throw (TypeError "Cannot read property 'toNumber' of undefined")
  | VNull => Throw (TypeError "Cannot read property 'toNumber' of null")
  | _ => Throw (TypeError "toNumber is not a function")
  end.

Definition getRegistryDetail (registryID : string) : outcome (value * value) :=
  resp <~ query_registries registryID ;;
  match resp with
  | None => Throw (JsError ("Could not find revocation registry: " ++ registryID))
  | Some respTuple =>
      if (List.length respTuple =? 2)%nat then
        lastModified <~ toNumber (nth 1 respTuple VUndef) ;;
        Ok (nth 0 respTuple VUndef, lastModified)
      else Throw (JsError ("Needed 2 items in response but got"
                           ++ string_of_nat (List.length respTuple)))
  end.

Definition getRevocationRegistry (registryID : string) : outcome value :=
  detail <~ getRegistryDetail registryID ;;
  Ok (fst detail).

Definition getBlockNoForLastChangeToRegistry (registryId : string) : outcome value :=
  detail <~ getRegistryDetail registryId ;;
  Ok (snd detail).

(** [getIsRevoked(registryId, revokeId)] of the module *)
Definition module_getIsRevoked (registryId revokeId : string) : outcome bool :=
  resp <~ query_revocations registryId revokeId ;;
  Ok (negb (match resp with None => true | Some _ => false end)).

(** [didKeys.getSignatures(bytes)] *)
Definition DidKeys : Type := list Byte.byte -> value.

Definition update_payload (registryID : value) (revokeIds : list value) (lastModified : value)
  : value :=
  VObj [("registry_id", registryID); ("revoke_ids", VArr revokeIds);
        ("last_modified", lastModified)].

Definition revoke (registryID : value) (revokeIds : list value) (lastModified : value)
    (didKeys : DidKeys) : Extrinsic :=
  let revoke := update_payload registryID revokeIds lastModified in
  let serializedRevoke := getStateChange "Revoke" revoke in
  let signedProof := didKeys serializedRevoke in
  {| tx_call := "revoke"; tx_args := [revoke; signedProof] |}.

Definition unrevoke (registryID : value) (revokeIds : list value) (lastModified : value)
    (didKeys : DidKeys) : Extrinsic :=
  let unrevoke := update_payload registryID revokeIds lastModified in
  let serializedUnrevoke := getStateChange "Unrevoke" unrevoke in
  let signedProof := didKeys serializedUnrevoke in
  {| tx_call := "unrevoke"; tx_args := [unrevoke; signedProof] |}.

Definition removeRegistry (registryID lastModified : value) (didKeys : DidKeys) : Extrinsic :=
  let removal := VObj [("registry_id", registryID); ("last_modified", lastModified)] in
  let serializedRemoval := getStateChange "RemoveRegistry" removal in
  let signedProof := didKeys serializedRemoval in
  {| tx_call := "removeRegistry"; tx_args := [removal; signedProof] |}.

Definition updateRevReg
    (updateFunc : value -> list value -> value -> DidKeys -> Extrinsic)
    (didKeys : DidKeys) (registryId revId : string) : outcome Extrinsic :=
  lastModified <~ getBlockNoForLastChangeToRegistry registryId ;;
  Ok (updateFunc (VStr registryId) [VStr revId] lastModified didKeys).

Definition revokeCredential (didKeys : DidKeys) (registryId revId : string) : outcome Extrinsic :=
  updateRevReg revoke didKeys registryId revId.

Definition unrevokeCredential (didKeys : DidKeys) (registryId revId : string)
  : outcome Extrinsic :=
  updateRevReg unrevoke didKeys registryId revId.

(** The node API of which [revocation] is this module. *)
Definition module_dock (blob_get : string -> outcome (list Byte.byte * list Byte.byte))
  : DockAPI :=
  {| getIsRevoked := module_getIsRevoked; blob_get := blob_get |}.

End RevocationModule.

(** ** The DID module *)

Definition DockDIDQualifier : string := "did:dock".
Definition DockDIDByteSize : nat := 32.

(** What a function of the DID module throws: a string, or the error of a
    rejected query. *)
Inductive thrown : Type :=
| ThrownString (s : string)
| ThrownError (e : error).

(** The node type [PublicKey] of [types.json], with the key as it prints. *)
Inductive PublicKey : Type :=
| Sr25519 (key : string)
| Ed25519 (key : string)
| Secp256k1 (key : string).

(** The node type [KeyDetail]. *)
Record KeyDetail : Type := {
  controller : string;
  public_key : PublicKey
}.

Section DIDModule.

(** [isHexWithGivenByteSize] as the module imports it. *)
Variable isHex : value -> nat -> bool.

(** [api.query.didModule.dids(did)]: [null], or an option of the detail and
    the block of its last change. *)
Variable query_dids : string -> outcome (option (option (KeyDetail * Z))).

Definition validateDockDIDIdentifier (did : value) : thrown + unit :=
  if negb (isHex did DockDIDByteSize)
  then inl (ThrownString ("DID identifier must be " ++ string_of_nat DockDIDByteSize ++ " bytes"))
  else inr tt.

Definition thrown_bind {A B} (r : thrown + A) (f : A -> thrown + B) : thrown + B :=
  match r with
  | inl t => inl t
  | inr a => f a
  end.

(** [new(did, controller, public_key)] *)
Definition DIDModule_new (did controller public_key : value) : thrown + Extrinsic :=
  thrown_bind (validateDockDIDIdentifier did) (fun _ =>
  thrown_bind (validateDockDIDIdentifier controller) (fun _ =>
  inr {| tx_call := "new";
         tx_args := [did; VObj [("controller", controller); ("public_key", public_key)]] |})).

Definition updateKey (did signature public_key controller : value) : thrown + Extrinsic :=
  thrown_bind (validateDockDIDIdentifier did) (fun _ =>
  thrown_bind (if truthy controller then validateDockDIDIdentifier controller else inr tt)
    (fun _ =>
  let keyUpdate := VObj [("did", did); ("controller", controller);
                         ("public_key", public_key); ("last_modified_in_block", VNum 0)] in
  inr {| tx_call := "updateKey"; tx_args := [keyUpdate; signature] |})).

Definition DIDModule_remove (did signature : value) : thrown + Extrinsic :=
  thrown_bind (validateDockDIDIdentifier did) (fun _ =>
  inr {| tx_call := "remove";
         tx_args := [VObj [("did", did); ("last_modified_in_block", VNum 0)]; signature] |}).

Definition getDocument (did : string) : thrown + value :=
  match query_dids did with
  | Throw e => inl (ThrownError e)
  | Ok None => inl (ThrownString "Got null response")
  | Ok (Some None) => inl (ThrownString ("Could not find DID: " ++ did))
  | Ok (Some (Some (detail, _))) =>
      let id := DockDIDQualifier ++ ":" ++ did in
      let (type, publicKeyBase58) :=
        match public_key detail with
        | Sr25519 key => ("Sr25519VerificationKey2018", key)
        | Ed25519 key => ("Ed25519VerificationKey2018", key)
        | Secp256k1 key => ("EcdsaSecp256k1VerificationKey2019", key)
        end in
      let publicKey :=
        [VObj [("id", VStr (id ++ "#keys-1")); ("type", VStr type);
               ("controller", VStr (DockDIDQualifier ++ ":" ++ controller detail));
               ("publicKeyBase58", VStr publicKeyBase58)]] in
      let authentication := map (fun key => prop_of key "id") publicKey in
      inr (VObj [("@context", VArr [VStr "https://www.w3.org/ns/did/v1"]);
                 ("id", VStr id);
                 ("publicKey", VArr publicKey);
                 ("authentication", VArr authentication)])
  end.

End DIDModule.

(** ** Vocabulary of the further statements *)

(** A JSON value that is neither an object nor an array. *)
Definition not_an_object (v : value) : bool :=
  match v with
  | VObj _ | VArr _ => false
  | _ => true
  end.


(** ** Sample documents and collaborators *)

Definition demo_keyDoc : obj :=
  [("id", VStr "did:dock:5Issuer#keys-1"); ("controller", VStr "did:dock:5Issuer");
   ("type", VStr "Ed25519VerificationKey2018"); ("publicKeyBase58", VStr "9kPub")].

Definition demo_keyDoc_rsa : obj :=
  [("id", VStr "did:dock:5Issuer#keys-2"); ("type", VStr "RsaVerificationKey2018")].

Definition is_hex_digit (c : ascii) : bool :=
  let n := nat_of_ascii c in
  ((48 <=? n)%nat && (n <=? 57)%nat)
  || ((97 <=? n)%nat && (n <=? 102)%nat)
  || ((65 <=? n)%nat && (n <=? 70)%nat).

(** A hex test in the way of [utils/codec]: [0x] and two digits a byte. *)
Definition demo_isHex (s : string) (byteSize : nat) : bool :=
  starts_with "0x" s
  && (String.length s =? 2 + 2 * byteSize)%nat
  && forallb is_hex_digit (list_ascii_of_string (slice_from 2 s)).

(** A node on which the listed pairs of registry id and revocation id are
    revoked and the listed blobs are stored. *)
Definition demo_dock (revoked : list (string * string))
    (blobs : list (string * string)) : DockAPI :=
  {| getIsRevoked := fun registryId revokeId =>
       Ok (existsb (fun p => String.eqb (fst p) registryId && String.eqb (snd p) revokeId)
                   revoked);
     blob_get := fun hexId =>
       match find (fun p => String.eqb (fst p) hexId) blobs with
       | Some p => Ok ([], list_byte_of_string (snd p))
       | None => Throw (JsError ("Could not find blob " ++ hexId))
       end |}.

(** A validator that checks the [required] members only. *)
Definition demo_validate (instance schema : value) : outcome unit :=
  if forallb (fun name => negb (is_undefined (member (to_string name) (spread instance))))
             (elements (prop_of schema "required"))
  then Ok tt
  else Throw (ValidationError "instance" "requires a property").

(** Collaborators for the samples: a proof verifies when the document carries
    a truthy [proof]; two blobs parse as schemas. *)
Definition demo_env : Env :=
  {| vcjs_verifyCredential := fun credential _ _ =>
       Ok (VObj [("verified", VBool (truthy (prop_of credential "proof")));
                 ("results", VArr [VObj [("proof", prop_of credential "proof")]])]);
     vcjs_verify := fun presentation _ _ _ _ =>
       Ok (VObj [("verified", VBool (truthy (prop_of presentation "proof")));
                 ("presentationResult", VObj [("proof", prop_of presentation "proof")])]);
     validate := demo_validate;
     blake2AsHex := fun v _ => "0x" ++ to_string v;
     isHexWithGivenByteSize := demo_isHex;
     getHexIdentifierFromBlobID := fun id =>
       match id with
       | VStr s => if starts_with "blob:dock:" s
                   then Ok (slice_from (String.length "blob:dock:") s)
                   else Throw (JsError "Invalid blob id")
       | _ => Throw (JsError "Invalid blob id")
       end;
     u8aToString := string_of_list_byte;
     u8aToHex := fun _ => "0x00";
     hexDIDToQualified := fun hex => "did:dock:" ++ hex;
     JSON_parse := fun s =>
       if String.eqb s "{}" then Ok (VObj [])
       else if String.eqb s "{required:[name]}"
            then Ok (VObj [("type", VStr "object"); ("required", VArr [VStr "name"])])
            else Throw (JsError "Unexpected token") |}.

Definition demo_registry : string :=
  "0x0123456789abcdef0123456789abcdef0123456789abcdef0123456789abcdef".

Definition demo_status : value :=
  VObj [("id", VStr ("rev-reg:dock:" ++ demo_registry)); ("type", VStr "CredentialStatusList2017")].

(** A signed credential with a status, and the same without a proof. *)
Definition demo_credential : obj :=
  [("id", VStr "urn:cred:1"); ("type", VArr [VStr "VerifiableCredential"]);
   ("issuer", VStr "did:dock:5Issuer"); ("issuanceDate", VStr "2020-03-18T19:23:24Z");
   ("credentialSubject", VObj [("id", VStr "did:dock:5Holder"); ("name", VStr "Ada")]);
   ("credentialStatus", demo_status);
   ("proof", VObj [("type", VStr "Ed25519Signature2018")])].

Definition demo_credential_unsigned : obj := obj_delete "proof" demo_credential.

(** A status of the recognized type that has no [id]. *)
Definition demo_credential_no_status_id : obj :=
  obj_set "credentialStatus" (VObj [("type", VStr "CredentialStatusList2017")]) demo_credential.

Definition demo_credential_no_status : obj := obj_delete "credentialStatus" demo_credential.

Definition demo_node : DockAPI :=
  demo_dock [(demo_registry, "0xurn:cred:1")] [("5Schema", "{required:[name]}")].

Definition demo_node_nothing_revoked : DockAPI :=
  demo_dock [] [("5Schema", "{required:[name]}")].

Definition demo_schema_ref : value :=
  VObj [("id", VStr "blob:dock:5Schema"); ("type", VStr "JsonSchemaValidator2018")].

(** A signed credential without status that declares a schema requiring
    [name], with a subject that has no [name]. *)
Definition demo_credential_mismatch : obj :=
  [("id", VStr "urn:cred:2"); ("type", VArr [VStr "VerifiableCredential"]);
   ("issuer", VStr "did:dock:5Issuer"); ("issuanceDate", VStr "2020-03-18T19:23:24Z");
   ("credentialSubject", VObj [("id", VStr "did:dock:5Holder"); ("alumniOf", VStr "Example University")]);
   ("credentialSchema", demo_schema_ref);
   ("proof", VObj [("type", VStr "Ed25519Signature2018")])].

Definition demo_params_revocation (node : DockAPI) : VerifiableParams :=
  {| challenge := VUndef; domain := VUndef; resolver := None;
     compactProof := true; forceRevocationCheck := true;
     revocationApi := Some {| dock := Some node |}; schemaApi := None |}.

Definition demo_params_empty_schemaApi : VerifiableParams :=
  {| challenge := VUndef; domain := VUndef; resolver := None;
     compactProof := true; forceRevocationCheck := true;
     revocationApi := None; schemaApi := Some {| dock := None |} |}.

(** The defaults with an empty object for the revocation API. *)
Definition demo_params_empty_revocationApi : VerifiableParams :=
  {| challenge := VUndef; domain := VUndef; resolver := None;
     compactProof := true; forceRevocationCheck := true;
     revocationApi := Some {| dock := None |}; schemaApi := None |}.

(** What the sample verifier answers for a document with the sample proof. *)
Definition demo_credVer : value :=
  VObj [("verified", VBool true);
        ("results", VArr [VObj [("proof", VObj [("type", VStr "Ed25519Signature2018")])]])].

Definition demo_credVer_failed : value :=
  VObj [("verified", VBool false); ("results", VArr [VObj [("proof", VUndef)]])].

Definition demo_params_both (node : DockAPI) : VerifiableParams :=
  {| challenge := VStr "0x1234"; domain := VStr "example.com"; resolver := None;
     compactProof := true; forceRevocationCheck := true;
     revocationApi := Some {| dock := Some node |};
     schemaApi := Some {| dock := Some node |} |}.

(** A signed presentation of the revoked sample credential followed by the
    credential whose subject does not match its schema. *)
Definition demo_presentation : obj :=
  [("type", VArr [VStr "VerifiablePresentation"]);
   ("verifiableCredential", VArr [VObj demo_credential; VObj demo_credential_mismatch]);
   ("proof", VObj [("type", VStr "Ed25519Signature2018")])].


(** The schema document that [Schema.get] answers for the sample blob. *)
Definition demo_schema_doc : value :=
  VObj [("type", VStr "object"); ("required", VArr [VStr "name"]);
        ("id", VStr "blob:dock:5Schema"); ("author", VStr "did:dock:0x00")].

(** A credential whose [credentialSubject] is the empty sequence. *)
Definition demo_credential_no_subjects : obj :=
  obj_set "credentialSubject" (VArr []) demo_credential_mismatch.

(** A credential whose only subject has a member called [length]. *)
Definition demo_credential_subject_with_length : obj :=
  obj_set "credentialSubject"
          (VObj [("id", VStr "did:dock:5Holder"); ("name", VNum 7); ("length", VNum 1)])
          demo_credential_mismatch.

Definition demo_params_schema (node : DockAPI) : VerifiableParams :=
  {| challenge := VUndef; domain := VUndef; resolver := None;
     compactProof := true; forceRevocationCheck := true;
     revocationApi := None; schemaApi := Some {| dock := Some node |} |}.

(** A scan for sample schema documents, which declare their identifier under
    [id] and list their references under [refs]. *)
Definition demo_scan (doc : value) : obj * list string :=
  (match prop_of doc "id" with
   | VStr id => [(id, doc)]
   | _ => [("/", doc)]
   end,
   flat_map (fun ref => match ref with VStr s => [s] | _ => [] end)
            (elements (prop_of doc "refs"))).

Definition demo_parses_as_URL (s : string) : bool :=
  starts_with "http://" s || starts_with "blob:" s.

(** A web of two documents. *)
Definition demo_web (url : string) : outcome value :=
  web_lookup url
    [("http://example.com/person",
      Ok (VObj [("id", VStr "http://example.com/person");
                ("refs", VArr [VStr "http://example.com/name"])]));
     ("http://example.com/name",
      Ok (VObj [("id", VStr "http://example.com/name"); ("type", VStr "string")]))].

Definition demo_root_schema : value :=
  VObj [("id", VStr "http://example.com/root");
        ("refs", VArr [VStr "http://example.com/person"])].

(** A root schema that refers to its own definitions only. *)
Definition demo_root_own_definitions : value :=
  VObj [("id", VStr "blob:dock:5Root"); ("refs", VArr [VStr "blob:dock/:5Root#/$defs/uri"])].

Definition demo_validator : Validator := {| schemas := []; unresolvedRefs := [] |}.

(** A web in which two documents refer to a third. *)
Definition demo_web_diamond (url : string) : outcome value :=
  web_lookup url
    [("http://example.com/a",
      Ok (VObj [("id", VStr "http://example.com/a");
                ("refs", VArr [VStr "http://example.com/c"])]));
     ("http://example.com/b",
      Ok (VObj [("id", VStr "http://example.com/b");
                ("refs", VArr [VStr "http://example.com/c"])]));
     ("http://example.com/c", Ok (VObj [("id", VStr "http://example.com/c")]))].

Definition demo_root_diamond : value :=
  VObj [("id", VStr "http://example.com/root");
        ("refs", VArr [VStr "http://example.com/a"; VStr "http://example.com/b"])].

(** A server that answers every locator with a document of that identifier
    which refers to one further locator, the same with [/next] appended. *)
Definition demo_web_chain (url : string) : outcome value :=
  Ok (VObj [("id", VStr url); ("refs", VArr [VStr (url ++ "/next")])]).

(** The locators of the chain that starts at [http://example.com/chain]. *)
Fixpoint chain_tail (n : nat) : string :=
  match n with
  | O => EmptyString
  | S k => chain_tail k ++ "/next"
  end.

Definition chain_locator (n : nat) : string := "http://example.com/chain" ++ chain_tail n.

Definition demo_root_chain : value :=
  VObj [("id", VStr "http://example.com/root");
        ("refs", VArr [VStr "http://example.com/chain"])].

(** The import of [demo_root_chain] after [n] turns: the worklist holds the
    [n]-th locator of the chain, no locator from there on is registered, and
    the locators taken so far are earlier ones. *)
Definition chain_config_at (n : nat) (c : Config) : Prop :=
  unresolvedRefs (cfg_validator c) = [chain_locator n] /\
  (forall m, n <= m -> member (chain_locator m) (schemas (cfg_validator c)) = VUndef) /\
  (forall x, In x (cfg_taken c) -> exists i, i < n /\ x = chain_locator i).

(** ** Samples for the further statements *)

(** An issuer that attaches a proof naming the verification method of the
    suite. *)
Definition demo_vcjs_issue (suite : Suite) (credential : value) (compactProof : bool)
  : outcome value :=
  Ok (VObj (obj_set "proof" (VObj [("verificationMethod", verificationMethod suite)])
                    (spread credential))).

(** A draft that states an issuer of its own. *)
Definition demo_draft : obj :=
  [("id", VStr "urn:cred:3"); ("issuer", VStr "did:example:someone");
   ("credentialSubject", VObj [("id", VStr "did:dock:5Holder")])].

Definition demo_JSONSchema07 : value :=
  VObj [("$id", VStr "http://json-schema.org/draft-07/schema#"); ("type", VStr "object")].

(** A server of specifications: one typed as JSON, one sent as text that
    parses, one sent as text that does not. *)
Definition demo_web_specs (url : string) : outcome value :=
  web_lookup url
    [("http://example.com/spec", Ok (VObj [("type", VStr "object")]));
     ("http://example.com/spec.txt", Ok (VStr "{}"));
     ("http://example.com/spec.html", Ok (VStr "<html>"))].

Definition demo_schema_json : obj :=
  [("id", VStr "blob:dock:5Schema");
   ("schema", VObj [("$schema", VStr "http://json-schema.org/draft-07/schema#")]);
   ("author", VStr "did:dock:5Author");
   ("signature", VStr "0xsig")].

Definition demo_getHexIdentifierFromDID (did : value) : outcome string :=
  match did with
  | VStr s => if starts_with "did:dock:" s
              then Ok (slice_from (String.length "did:dock:") s)
              else Ok s
  | _ => Throw (JsError "Invalid DID")
  end.

(** A node with one revocation registry, last changed in block 42. *)
Definition demo_query_registries (registryID : string) : outcome (option (list value)) :=
  if String.eqb registryID demo_registry
  then Ok (Some [VObj [("policy", VObj [("OneOf", VArr [VStr "0xcontroller"])]);
                       ("add_only", VBool false)];
                 VNum 42])
  else Ok None.

Definition demo_query_revocations (registryId revokeId : string) : outcome (option value) :=
  if String.eqb registryId demo_registry && String.eqb revokeId "0xurn:cred:1"
  then Ok (Some VNull)
  else Ok None.

Definition demo_getStateChange (name : string) (payload : value) : list Byte.byte :=
  list_byte_of_string (name ++ ":" ++ to_string (prop_of payload "registry_id")).

Definition demo_didKeys : DidKeys :=
  fun bytes => VObj [("0xcontroller", VStr (string_of_list_byte bytes))].

Definition demo_blob_get (hexId : string) : outcome (list Byte.byte * list Byte.byte) :=
  Throw (JsError ("Could not find blob " ++ hexId)).

Definition demo_did : string :=
  "0xaaaaaaaaaaaaaaaaaaaaaaaaaaaaaaaaaaaaaaaaaaaaaaaaaaaaaaaaaaaaaaaa".

Definition demo_isHex_value (v : value) (byteSize : nat) : bool :=
  match v with
  | VStr s => demo_isHex s byteSize
  | _ => false
  end.

Definition demo_query_dids (did : string) : outcome (option (option (KeyDetail * Z))) :=
  if String.eqb did demo_did
  then Ok (Some (Some ({| controller := demo_did; public_key := Ed25519 "0xkey" |}, 7%Z)))
  else Ok (Some None).

(** * Properties *)

(** ** Objects *)

Lemma member_obj_set_same (k : string) (v : value) (o : obj) :
  member k (obj_set k v o) = v.
Proof.
  unfold member.
  induction o as [|[k' v'] o IH]; simpl.
  - now rewrite String.eqb_refl.
  - destruct (String.eqb k k') eqn:Hk; simpl; rewrite Hk; [reflexivity | exact IH].
Qed.

Lemma member_obj_set_other (k k' : string) (v : value) (o : obj) :
  k' <> k -> member k' (obj_set k v o) = member k' o.
Proof.
  intros Hne. unfold member.
  induction o as [|[k0 v0] o IH]; simpl.
  - destruct (String.eqb k' k) eqn:Hk; [apply String.eqb_eq in Hk; contradiction | reflexivity].
  - destruct (String.eqb k k0) eqn:Hk; simpl.
    + apply String.eqb_eq in Hk. subst k0.
      destruct (String.eqb k' k) eqn:Hk'; [apply String.eqb_eq in Hk'; contradiction | reflexivity].
    + destruct (String.eqb k' k0); [reflexivity | exact IH].
Qed.

Lemma member_obj_delete_same (k : string) (o : obj) :
  member k (obj_delete k o) = VUndef.
Proof.
  unfold member.
  induction o as [|[k' v'] o IH]; simpl; [reflexivity|].
  destruct (String.eqb k k') eqn:Hk; simpl; [exact IH | now rewrite Hk].
Qed.

(** ** Suite selector *)


(** C4.  A key document whose [type] is one of the three recognized key type
    names yields a suite whose verification method is the document's [id] (and
    which keeps the other members of the document); any other [type] raises
    the error [Unknown key type <type>.], which names the offending tag. *)
Theorem getSuiteFromKeyDoc_recognized_or_unsupported (keyDoc : obj) :
  (recognized_tag (member "type" keyDoc) = true ->
   exists suite,
     getSuiteFromKeyDoc (VObj keyDoc) = Ok suite /\
     verificationMethod suite = member "id" keyDoc /\
     forall k, k <> "verificationMethod" ->
               member k (suite_options suite) = member k keyDoc) /\
  (recognized_tag (member "type" keyDoc) = false ->
   getSuiteFromKeyDoc (VObj keyDoc) =
   Throw (JsError ("Unknown key type " ++ to_string (member "type" keyDoc) ++ "."))).
Proof.
  unfold recognized_tag, getSuiteFromKeyDoc. simpl get_prop. simpl obind.
  split; intros H.
  - assert (Hsuite : forall Cls,
               exists suite,
                 Ok {| suite_class := Cls;
                       suite_options := obj_set "verificationMethod" (member "id" keyDoc) keyDoc |}
                 = Ok suite /\
                 verificationMethod suite = member "id" keyDoc /\
                 forall k, k <> "verificationMethod" ->
                           member k (suite_options suite) = member k keyDoc).
    { intros Cls. eexists. split; [reflexivity|]. split.
      - apply member_obj_set_same.
      - intros k Hk. now apply member_obj_set_other. }
    destruct (strict_eq_str (member "type" keyDoc) EcdsaSecp256k1VerKeyName); [apply Hsuite|].
    destruct (strict_eq_str (member "type" keyDoc) Ed25519VerKeyName); [apply Hsuite|].
    destruct (strict_eq_str (member "type" keyDoc) Sr25519VerKeyName); [apply Hsuite|].
    discriminate H.
  - apply orb_false_iff in H as [H H3]. apply orb_false_iff in H as [H1 H2].
    now rewrite H1, H2, H3.
Qed.


Lemma getSuiteFromKeyDoc_witness :
  (exists suite,
     getSuiteFromKeyDoc (VObj demo_keyDoc) = Ok suite /\
     verificationMethod suite = VStr "did:dock:5Issuer#keys-1" /\
     forall k, k <> "verificationMethod" ->
               member k (suite_options suite) = member k demo_keyDoc) /\
  getSuiteFromKeyDoc (VObj demo_keyDoc_rsa) =
  Throw (JsError "Unknown key type RsaVerificationKey2018.").
Proof.
  split.
  - apply (proj1 (getSuiteFromKeyDoc_recognized_or_unsupported demo_keyDoc)). reflexivity.
  - apply (proj2 (getSuiteFromKeyDoc_recognized_or_unsupported demo_keyDoc_rsa)). reflexivity.
Defined.

(** ** Revocation evaluator *)


(** C5.  [isRevocationCheckNeeded] answers true exactly when the status is
    truthy and the check is forced or a revocation API was passed; for a
    credential whose [credentialStatus] is an object or absent, that is when
    the field exists; an API object without any entry counts as passed. *)
Theorem isRevocationCheckNeeded_iff :
  (forall (credStatus : value) (forceCheck : bool) (revocationApi : option Api),
     isRevocationCheckNeeded credStatus forceCheck revocationApi = true <->
     truthy credStatus = true /\ (forceCheck = true \/ exists api, revocationApi = Some api)) /\
  (forall (status : option obj) (forceCheck : bool) (revocationApi : option Api),
     isRevocationCheckNeeded (status_field status) forceCheck revocationApi = true <->
     (exists o, status = Some o) /\ (forceCheck = true \/ exists api, revocationApi = Some api)) /\
  (forall (o : obj), isRevocationCheckNeeded (VObj o) false (Some {| dock := None |}) = true).
Proof.
  assert (Hsup : forall x : option Api, is_supplied x = true <-> exists api, x = Some api).
  { intros [a|]; simpl; split; intros H; try discriminate; eauto. now destruct H. }
  split; [|split].
  - intros credStatus forceCheck revocationApi. unfold isRevocationCheckNeeded.
    rewrite andb_true_iff, orb_true_iff, Hsup. reflexivity.
  - intros status forceCheck revocationApi. unfold isRevocationCheckNeeded.
    rewrite andb_true_iff, orb_true_iff, Hsup.
    destruct status as [o|]; simpl; split; intros [H1 H2]; split; eauto; try discriminate.
    now destruct H1.
  - reflexivity.
Qed.

Lemma status_read (credential : obj) :
  get_prop (VObj credential) "credentialStatus" = Ok (status_of credential).
Proof. reflexivity. Qed.

Lemma truthy_prop_of (v : value) (k : string) :
  truthy v = true -> get_prop v k = Ok (prop_of v k).
Proof. unfold prop_of. destruct v; simpl; try discriminate; intros _;
  try reflexivity; now destruct (String.eqb k "length"). Qed.

Lemma hasDockRevocation_not_formatted (E : Env) (credential : obj) :
  not_revocation_formatted E credential ->
  exists v, hasDockRevocation E (VObj credential) = Ok v /\ truthy v = false.
Proof.
  intros H. unfold hasDockRevocation. rewrite status_read. simpl obind.
  destruct H as [Hs | Hs Ht | id Hs Ht Hid Hq | id Hs Ht Hid Hq Hhex].
  - rewrite Hs. simpl. eauto.
  - rewrite Hs. simpl negb. cbv iota. rewrite (truthy_prop_of _ "type" Hs). simpl obind.
    rewrite Ht. simpl. eauto.
  - rewrite Hs. simpl negb. cbv iota. rewrite (truthy_prop_of _ "type" Hs). simpl obind.
    rewrite Ht. simpl negb. cbv iota. rewrite (truthy_prop_of _ "id" Hs). simpl obind.
    rewrite Hid. cbn [method_startsWith obind]. rewrite Hq. simpl. eauto.
  - rewrite Hs. simpl negb. cbv iota. rewrite (truthy_prop_of _ "type" Hs). simpl obind.
    rewrite Ht. simpl negb. cbv iota. rewrite (truthy_prop_of _ "id" Hs). simpl obind.
    rewrite Hid. cbn [method_startsWith obind]. rewrite Hq. simpl negb. cbv iota.
    cbn [method_slice obind]. change (String.length DockRevRegQualifier) with 13 in Hhex. rewrite Hhex. simpl. eauto.
Qed.

Lemma hasDockRevocation_formatted (E : Env) (credential : obj) (id : string) :
  revocation_formatted E credential id ->
  hasDockRevocation E (VObj credential) = Ok (VBool true).
Proof.
  intros (Hs & Ht & Hid & Hq & Hhex). unfold hasDockRevocation. rewrite status_read. simpl obind.
  rewrite Hs. simpl negb. cbv iota. rewrite (truthy_prop_of _ "type" Hs). simpl obind.
  rewrite Ht. simpl negb. cbv iota. rewrite (truthy_prop_of _ "id" Hs). simpl obind.
  rewrite Hid. cbn [method_startsWith obind]. rewrite Hq. simpl negb. cbv iota.
  cbn [method_slice obind]. change (String.length DockRevRegQualifier) with 13 in Hhex.
  now rewrite Hhex.
Qed.

(** The cases in which the check does what is asked of it.  With a revocation
    API object that has no [dock] entry it raises [Only Dock revocation support
    is present as of now.]; with one, a credential that is not
    revocation-formatted (status missing, wrong type tag, wrong registry
    qualifier, or a remainder that is not hex of the fixed width) gets the
    format verdict without any query, and a formatted one is looked up under
    the remainder of the status id and the hash of the credential id: revoked
    gives [{verified: false, error}], otherwise [{verified: true}]. *)
Lemma checkRevocationStatus_cases (E : Env) (credential : obj) (api : Api) :
  (dock api = None ->
   checkRevocationStatus E (VObj credential) (Some api) =
   ([], Throw (JsError "Only Dock revocation support is present as of now."))) /\
  (forall dockAPI, dock api = Some dockAPI ->
     not_revocation_formatted E credential ->
     checkRevocationStatus E (VObj credential) (Some api) = ([], Ok verdict_bad_format)) /\
  (forall dockAPI id, dock api = Some dockAPI ->
     revocation_formatted E credential id ->
     let regId := slice_from (String.length DockRevRegQualifier) id in
     let revId := blake2AsHex E (member "id" credential) 256 in
     checkRevocationStatus E (VObj credential) (Some api) =
     ([EvGetIsRevoked regId revId], revocation_verdict (getIsRevoked dockAPI regId revId))).
Proof.
  unfold checkRevocationStatus. simpl api_dock.
  split; [|split].
  - intros Hd. now rewrite Hd.
  - intros dockAPI Hd Hnf. rewrite Hd.
    destruct (hasDockRevocation_not_formatted E credential Hnf) as (v & Hv & Hfalsy).
    rewrite Hv. simpl. now rewrite Hfalsy.
  - intros dockAPI id Hd Hf. rewrite Hd.
    rewrite (hasDockRevocation_formatted E credential id Hf).
    destruct Hf as (Hs & Ht & Hid & Hq & Hhex).
    simpl. fold (status_of credential). rewrite (truthy_prop_of _ "id" Hs), Hid. simpl.
    destruct (getIsRevoked dockAPI _ _) as [[|]|e]; reflexivity.
Qed.

Example checkRevocationStatus_samples :
  checkRevocationStatus demo_env (VObj demo_credential) (Some {| dock := None |}) =
    ([], Throw (JsError "Only Dock revocation support is present as of now.")) /\
  checkRevocationStatus demo_env (VObj demo_credential_no_status)
                        (Some {| dock := Some demo_node |}) = ([], Ok verdict_bad_format) /\
  checkRevocationStatus demo_env (VObj demo_credential) (Some {| dock := Some demo_node |}) =
    ([EvGetIsRevoked demo_registry "0xurn:cred:1"], Ok verdict_revoked).
Proof. repeat split. Qed.

(** C6, the code at the inputs where it leaves the specification.  A status
    of the recognized type whose [id] is not a string, absent for one, is a
    fifth way of not being revocation-formatted, and the check does not give
    it the format verdict: with a revocation API that has a
    [dock] entry it throws a [TypeError], from calling [startsWith] on the
    [id], before any query. *)
Theorem checkRevocationStatus_status_id_not_string
    (E : Env) (credential status : obj) (dockAPI : DockAPI) :
  status_of credential = VObj status ->
  member "type" status = VStr RevRegType ->
  (forall s, member "id" status <> VStr s) ->
  (exists msg,
     checkRevocationStatus E (VObj credential) (Some {| dock := Some dockAPI |}) =
     ([], Throw (TypeError msg))) /\
  checkRevocationStatus E (VObj credential) (Some {| dock := Some dockAPI |}) <>
  ([], Ok verdict_bad_format).
Proof.
  intros Hs Ht Hid.
  assert (Hthrow : exists msg,
             checkRevocationStatus E (VObj credential) (Some {| dock := Some dockAPI |}) =
             ([], Throw (TypeError msg))).
  { unfold checkRevocationStatus, hasDockRevocation.
    cbn [api_dock dock lift bind]. rewrite status_read, Hs.
    cbn [obind truthy negb get_prop]. rewrite Ht.
    cbn [strict_eq_str]. rewrite String.eqb_refl. cbn [negb].
    destruct (member "id" status) as [| |b|z|s|l|o] eqn:Hmember; cbn; eauto.
    now contradiction (Hid s). }
  split; [exact Hthrow|].
  destruct Hthrow as [msg ->]. discriminate.
Qed.

Lemma checkRevocationStatus_status_id_not_string_witness :
  checkRevocationStatus demo_env (VObj demo_credential_no_status_id)
                        (Some {| dock := Some demo_node |}) =
  ([], Throw (TypeError "Cannot read property 'startsWith' of undefined")).
Proof.
  destruct (checkRevocationStatus_status_id_not_string demo_env demo_credential_no_status_id
              [("type", VStr "CredentialStatusList2017")] demo_node eq_refl eq_refl)
    as [[msg Hmsg] _].
  - intros s. discriminate.
  - rewrite Hmsg. vm_compute in Hmsg. injection Hmsg as <-. reflexivity.
Defined.

(** C10.  There is a credential whose status has the recognized type and no
    [id] on which [hasDockRevocation], and with it [checkRevocationStatus],
    throws a [TypeError] instead of answering false or the format verdict; for
    a status object of the recognized type the predicate answers exactly when
    the [id] is a string. *)
Theorem hasDockRevocation_throws_without_status_id (E : Env) :
  (exists credential status msg,
     status_of credential = VObj status /\
     member "type" status = VStr RevRegType /\
     member "id" status = VUndef /\
     hasDockRevocation E (VObj credential) = Throw (TypeError msg) /\
     forall dockAPI,
       checkRevocationStatus E (VObj credential) (Some {| dock := Some dockAPI |}) =
       ([], Throw (TypeError msg))) /\
  (forall credential status,
     status_of credential = VObj status ->
     member "type" status = VStr RevRegType ->
     ((exists v, hasDockRevocation E (VObj credential) = Ok v) <->
      (exists s, member "id" status = VStr s))).
Proof.
  split.
  - exists demo_credential_no_status_id, [("type", VStr "CredentialStatusList2017")],
           "Cannot read property 'startsWith' of undefined".
    repeat split.
  - intros credential status Hs Ht.
    unfold hasDockRevocation. rewrite status_read, Hs. cbn [obind truthy negb get_prop].
    rewrite Ht. cbn [strict_eq_str]. rewrite String.eqb_refl. cbn [negb].
    split.
    + intros [v Hv]. destruct (member "id" status) eqn:Hid; cbn in Hv; try discriminate.
      eauto.
    + intros [s Hid]. rewrite Hid. cbn [method_startsWith obind].
      destruct (negb (starts_with DockRevRegQualifier s)); cbn; eauto.
Qed.

Lemma hasDockRevocation_throws_witness :
  (exists v, hasDockRevocation demo_env (VObj demo_credential) = Ok v) <->
  (exists s, member "id" (spread demo_status) = VStr s).
Proof.
  apply (proj2 (hasDockRevocation_throws_without_status_id demo_env)
               demo_credential (spread demo_status)); reflexivity.
Defined.

(** ** The writer monad *)

Lemma result_bind {A B} (m : M A) (f : A -> M B) :
  result (bind m f) = obind (result m) (fun a => result (f a)).
Proof.
  destruct m as [l [a|e]]; simpl; [|reflexivity]. now destruct (f a).
Qed.


Lemma result_lift {A} (o : outcome A) : result (lift o) = o.
Proof. reflexivity. Qed.

Lemma M_eta {A} (m : M A) : m = (calls m, result m).
Proof. now destruct m. Qed.

Lemma result_call {A} (ev : event) (o : outcome A) : result (call ev o) = o.
Proof. reflexivity. Qed.



Lemma prop_of_read (v x : value) (k : string) :
  get_prop v k = Ok x -> prop_of v k = x.
Proof. unfold prop_of. now intros ->. Qed.

(** ** Credential verifier *)

(** [checkRevocationStatus] returns one of its three verdicts. *)
Lemma checkRevocationStatus_verdict (E : Env) (credential : value) (api : option Api) (r : value) :
  result (checkRevocationStatus E credential api) = Ok r ->
  r = verdict_bad_format \/ r = verdict_revoked \/ r = verdict_not_revoked.
Proof.
  unfold checkRevocationStatus. rewrite result_bind, result_lift.
  destruct (api_dock api) as [[dockAPI|]|e]; cbn [obind]; try discriminate.
  rewrite result_bind, result_lift.
  destruct (hasDockRevocation E credential) as [formatted|e]; cbn [obind]; try discriminate.
  destruct (negb (truthy formatted)).
  { intros [= <-]. now left. }
  repeat (rewrite result_bind;
          match goal with
          | |- context [result (lift ?o)] =>
              rewrite result_lift; destruct o; cbn [obind]; try discriminate
          | |- context [result (call ?ev ?o)] =>
              rewrite result_call; destruct o as [[|]|]; cbn [obind]; try discriminate
          end).
  - intros [= <-]. right. now left.
  - intros [= <-]. right. now right.
Qed.

(** C1.  When the schema step has passed, the signature verification has
    succeeded with result [credVer] and a revocation check is required: a
    failing verdict of [checkRevocationStatus] is what [verifyCredential]
    returns, an exception of the check is what it raises, and a passing check
    makes it return [credVer] itself; when no revocation check is required it
    returns [credVer]. *)
Theorem verifyCredential_revocation_overrides
    (E : Env) (credential : obj) (params : VerifiableParams) (credVer : value) :
  result (getAndValidateSchemaIfPresent E (VObj credential) (schemaApi params)) = Ok tt ->
  vcjs_verifyCredential E (VObj credential) (resolver params) (compactProof params) = Ok credVer ->
  truthy (prop_of credVer "verified") = true ->
  let required :=
    isRevocationCheckNeeded (status_of credential) (forceRevocationCheck params)
                            (revocationApi params) in
  let check := result (checkRevocationStatus E (VObj credential) (revocationApi params)) in
  let answer := result (verifyCredential E (VObj credential) params) in
  (forall revResult,
     required = true -> check = Ok revResult ->
     truthy (prop_of revResult "verified") = false ->
     answer = Ok revResult) /\
  (forall e, required = true -> check = Throw e -> answer = Throw e) /\
  (forall revResult,
     required = true -> check = Ok revResult ->
     truthy (prop_of revResult "verified") = true ->
     answer = Ok credVer) /\
  (required = false -> answer = Ok credVer).
Proof.
  intros Hschema Hvc Hver required check answer.
  assert (Hanswer : answer =
            if required
            then obind check (fun revResult =>
                   obind (get_prop revResult "verified") (fun revVerified =>
                     if negb (truthy revVerified) then Ok revResult else Ok credVer))
            else Ok credVer).
  { subst answer. unfold verifyCredential.
    rewrite result_bind, Hschema. cbn [obind].
    rewrite result_bind, result_call, Hvc. cbn [obind].
    rewrite result_bind, result_lift.
    unfold prop_of in Hver.
    destruct (get_prop credVer "verified") as [verified|e] eqn:Hget; [|discriminate Hver].
    cbn [obind]. rewrite Hver.
    rewrite result_bind, result_lift, status_read. cbn [obind].
    fold required. destruct required; [|reflexivity].
    rewrite result_bind. fold check. destruct check as [revResult|e]; [|reflexivity].
    cbn [obind]. rewrite result_bind, result_lift.
    destruct (get_prop revResult "verified"); [|reflexivity].
    cbn [obind]. now destruct (negb (truthy a)). }
  rewrite Hanswer. repeat split.
  - intros revResult -> Hcheck Hfail. rewrite Hcheck. cbn [obind]. unfold prop_of in Hfail.
    destruct (get_prop revResult "verified") as [rv|e] eqn:Hget.
    + cbn [obind]. now rewrite Hfail.
    + subst check.
      match goal with
      | H : result (checkRevocationStatus _ _ _) = Ok _ |- _ =>
          destruct (checkRevocationStatus_verdict _ _ _ _ H) as [->|[->| ->]]
      end; discriminate Hget.
  - intros e -> ->. reflexivity.
  - intros revResult -> -> Hpass. cbn [obind]. unfold prop_of in Hpass.
    destruct (get_prop revResult "verified") as [rv|e]; [|discriminate Hpass].
    cbn [obind]. now rewrite Hpass.
  - now intros ->.
Qed.

Lemma verifyCredential_revocation_witness :
  result (verifyCredential demo_env (VObj demo_credential) (demo_params_revocation demo_node))
  = Ok verdict_revoked /\
  result (verifyCredential demo_env (VObj demo_credential)
            (demo_params_revocation demo_node_nothing_revoked))
  = Ok demo_credVer.
Proof.
  split.
  - apply (proj1 (verifyCredential_revocation_overrides demo_env demo_credential
                    (demo_params_revocation demo_node) demo_credVer
                    eq_refl eq_refl eq_refl) verdict_revoked); reflexivity.
  - apply (proj1 (proj2 (proj2 (verifyCredential_revocation_overrides demo_env demo_credential
                    (demo_params_revocation demo_node_nothing_revoked) demo_credVer
                    eq_refl eq_refl eq_refl))) verdict_not_revoked); reflexivity.
Defined.

(** C2, the code at the inputs where it leaves the specification.  A
    credential that carries a status, passes the schema step and whose
    signature verifies, checked with the revocation check forced (the
    default): without a revocation API (the default, [null]) the call fails
    on reading [dock] of [null], so what is raised is the engine's
    [TypeError]; the configuration error [Only Dock revocation support is
    present as of now.] is raised for a revocation API object without a
    [dock] entry only.  Either way nothing is asked of a service and no
    verdict is returned. *)
Theorem verifyCredential_null_revocationApi
    (E : Env) (credential : obj) (params : VerifiableParams) (credVer : value) :
  truthy (status_of credential) = true ->
  forceRevocationCheck params = true ->
  result (getAndValidateSchemaIfPresent E (VObj credential) (schemaApi params)) = Ok tt ->
  vcjs_verifyCredential E (VObj credential) (resolver params) (compactProof params) = Ok credVer ->
  truthy (prop_of credVer "verified") = true ->
  let log :=
    (calls (getAndValidateSchemaIfPresent E (VObj credential) (schemaApi params))
     ++ [EvVerifyCredential (VObj credential)])%list in
  (revocationApi params = None ->
   verifyCredential E (VObj credential) params =
   (log, Throw (TypeError "Cannot read property 'dock' of null"))) /\
  (revocationApi params = Some {| dock := None |} ->
   verifyCredential E (VObj credential) params =
   (log, Throw (JsError "Only Dock revocation support is present as of now."))).
Proof.
  intros Hstatus Hforce Hschema Hvc Hver log. subst log.
  unfold verifyCredential.
  rewrite (M_eta (getAndValidateSchemaIfPresent E (VObj credential) (schemaApi params))).
  rewrite Hschema, Hvc. cbn [calls result fst snd bind call lift].
  unfold prop_of in Hver.
  destruct (get_prop credVer "verified") as [verified|e]; [|discriminate Hver].
  rewrite Hver, status_read.
  unfold isRevocationCheckNeeded. rewrite Hstatus, Hforce. cbn [andb orb].
  unfold checkRevocationStatus.
  split; intros ->; reflexivity.
Qed.

Lemma verifyCredential_null_revocationApi_witness :
  verifyCredential demo_env (VObj demo_credential) default_params =
    ([EvVerifyCredential (VObj demo_credential)],
     Throw (TypeError "Cannot read property 'dock' of null")) /\
  verifyCredential demo_env (VObj demo_credential) demo_params_empty_revocationApi =
    ([EvVerifyCredential (VObj demo_credential)],
     Throw (JsError "Only Dock revocation support is present as of now.")).
Proof.
  split.
  - exact (proj1 (verifyCredential_null_revocationApi demo_env demo_credential default_params
                    demo_credVer eq_refl eq_refl eq_refl eq_refl eq_refl) eq_refl).
  - exact (proj2 (verifyCredential_null_revocationApi demo_env demo_credential
                    demo_params_empty_revocationApi
                    demo_credVer eq_refl eq_refl eq_refl eq_refl eq_refl) eq_refl).
Defined.

(** With the defaults a credential whose signature does not verify gets the
    failing verdict of the signature verification back: the revocation check
    is run only after the signature verified. *)
Example verifyCredential_default_unsigned :
  verifyCredential demo_env (VObj demo_credential_unsigned) default_params =
  ([EvVerifyCredential (VObj demo_credential_unsigned)], Ok demo_credVer_failed).
Proof. reflexivity. Qed.

(** C3, as the code has it: without a schema API (the default) the schema
    step does nothing, whatever the credential declares; with a schema API
    object that has no [dock] entry, a credential with a subject and a declared
    schema makes the schema step, and [verifyCredential] before any other
    step, raise [Only Dock schemas are supported as of now.]. *)
Theorem getAndValidateSchemaIfPresent_without_service
    (E : Env) (credential : obj) (params : VerifiableParams) :
  truthy (member "credentialSubject" credential) = true ->
  truthy (member "credentialSchema" credential) = true ->
  getAndValidateSchemaIfPresent E (VObj credential) None = ([], Ok tt) /\
  (schemaApi params = Some {| dock := None |} ->
   getAndValidateSchemaIfPresent E (VObj credential) (schemaApi params) =
     ([], Throw (JsError "Only Dock schemas are supported as of now.")) /\
   verifyCredential E (VObj credential) params =
     ([], Throw (JsError "Only Dock schemas are supported as of now."))).
Proof.
  intros Hsubject Hschema. split; [reflexivity|].
  intros Hapi.
  assert (Hstep : getAndValidateSchemaIfPresent E (VObj credential) (schemaApi params) =
                  ([], Throw (JsError "Only Dock schemas are supported as of now."))).
  { rewrite Hapi. unfold getAndValidateSchemaIfPresent. cbn [get_prop lift bind app].
    rewrite Hsubject, Hschema. reflexivity. }
  split; [exact Hstep|].
  unfold verifyCredential. now rewrite Hstep.
Qed.

Lemma getAndValidateSchemaIfPresent_without_service_witness :
  getAndValidateSchemaIfPresent demo_env (VObj demo_credential_mismatch) None = ([], Ok tt) /\
  verifyCredential demo_env (VObj demo_credential_mismatch) demo_params_empty_schemaApi =
    ([], Throw (JsError "Only Dock schemas are supported as of now.")).
Proof.
  destruct (getAndValidateSchemaIfPresent_without_service demo_env demo_credential_mismatch
              demo_params_empty_schemaApi eq_refl eq_refl) as [Hskip Herr].
  split; [exact Hskip|]. exact (proj2 (Herr eq_refl)).
Defined.

(** With a schema API the same credential does not get past the schema
    step. *)
Example verifyCredential_schema_mismatch :
  verifyCredential demo_env (VObj demo_credential_mismatch) (demo_params_schema demo_node) =
  ([EvBlobGet "5Schema";
    EvValidate (VObj [("alumniOf", VStr "Example University")]) demo_schema_doc],
   Throw (JsError "Schema validation failed: instance requires a property")).
Proof. reflexivity. Qed.

(** C3 does not hold as the specification words it: a credential that
    declares a schema its subject does not satisfy, verified with no schema
    API, is verified without any schema lookup or validation and without an
    error. *)
Lemma verifyCredential_schema_skipped_counterexample :
  truthy (member "credentialSchema" demo_credential_mismatch) = true /\
  truthy (member "credentialSubject" demo_credential_mismatch) = true /\
  verifyCredential demo_env (VObj demo_credential_mismatch) default_params =
    ([EvVerifyCredential (VObj demo_credential_mismatch)], Ok demo_credVer).
Proof. repeat split. Qed.

(** ** Presentation verifier *)





Section PresentationTurns.
Variable E : Env.
Variable params : VerifiableParams.








End PresentationTurns.



(** ** Credential schemas *)




Lemma member_obj_delete_other (k k' : string) (o : obj) :
  k' <> k -> member k' (obj_delete k o) = member k' o.
Proof.
  intros Hne. unfold member.
  induction o as [|[k0 v0] o IH]; cbn [obj_delete lookup]; [reflexivity|].
  destruct (String.eqb k k0) eqn:Hk.
  - apply String.eqb_eq in Hk. subst k0.
    destruct (String.eqb k' k) eqn:Hk'; [apply String.eqb_eq in Hk'; contradiction | exact IH].
  - cbn [lookup]. destruct (String.eqb k' k0); [reflexivity | exact IH].
Qed.

(** A copy made for a schema that does not require [id] has no [id] and
    every other member of the subject; one made for a schema that requires
    [id] has every member. *)
Lemma subject_copy_members (requiresID : bool) (subject : obj) (k : string) :
  member k (spread (subject_copy requiresID (VObj subject))) =
  if negb requiresID && String.eqb k "id" then VUndef else member k subject.
Proof.
  unfold subject_copy. cbn [spread]. destruct requiresID; cbn [negb andb]; [reflexivity|].
  destruct (String.eqb k "id") eqn:Hk.
  - apply String.eqb_eq in Hk. subst k. apply member_obj_delete_same.
  - apply member_obj_delete_other. intros ->. now rewrite String.eqb_refl in Hk.
Qed.

(** For a schema document that [Schema.get] answers, the case [required]
    decides: the copies keep [id] exactly when [required] lists it. *)
Example validateCredentialSchema_keeps_required_id :
  calls (validateCredentialSchema demo_env (VObj demo_credential_mismatch)
           (VObj [("required", VArr [VStr "id"; VStr "alumniOf"])])) =
    [EvValidate (VObj [("id", VStr "did:dock:5Holder");
                       ("alumniOf", VStr "Example University")])
                (VObj [("required", VArr [VStr "id"; VStr "alumniOf"])])] /\
  calls (validateCredentialSchema demo_env (VObj demo_credential_mismatch)
           (VObj [("required", VArr [VStr "alumniOf"])])) =
    [EvValidate (VObj [("alumniOf", VStr "Example University")])
                (VObj [("required", VArr [VStr "alumniOf"])])].
Proof. split; reflexivity. Qed.

(** C9, the code at the inputs where it leaves the specification.  For an empty
    sequence of subjects the validator is called once, on an empty object, so
    a schema that requires a member rejects a credential without subjects; for
    a subject with a truthy member [length], here [1], the validator is called
    on an empty object and the subject itself is never handed to it. *)
Theorem validateCredentialSchema_subject_slip :
  validateCredentialSchema demo_env (VObj demo_credential_no_subjects) demo_schema_doc =
    ([EvValidate (VObj []) demo_schema_doc],
     Throw (ValidationError "instance" "requires a property")) /\
  getAndValidateSchemaIfPresent demo_env (VObj demo_credential_no_subjects)
    (Some {| dock := Some demo_node |}) =
    ([EvBlobGet "5Schema"; EvValidate (VObj []) demo_schema_doc],
     Throw (JsError "Schema validation failed: instance requires a property")) /\
  credential_subjects (VObj demo_credential_subject_with_length) = Ok [VUndef] /\
  calls (validateCredentialSchema demo_env (VObj demo_credential_subject_with_length)
           demo_schema_doc) =
    [EvValidate (VObj []) demo_schema_doc].
Proof. repeat split. Qed.

(** ** Schema import *)

Section SchemaImportFacts.
Variable scan : value -> obj * list string.
Variable parses_as_URL : string -> bool.
Variable web : string -> outcome value.

Lemma own_definition_nonempty (initialSchemaId next : string) :
  own_definition initialSchemaId next = true -> String.eqb next EmptyString = false.
Proof.
  intros Hown. destruct (String.eqb next EmptyString) eqn:Hnext; [|reflexivity].
  apply String.eqb_eq in Hnext. subst next.
  unfold own_definition in Hown. cbn in Hown. now destruct initialSchemaId.
Qed.

(** A worklist of references to the root's own definitions is emptied without
    a call. *)
Lemma importNextSchema_own_definitions
    (initialSchemaId : string) (schemaAPI : option Api) (registered : obj) (queue : list string) :
  Forall (fun ref => own_definition initialSchemaId ref = true) queue ->
  importNextSchema scan parses_as_URL web (S (List.length queue)) initialSchemaId schemaAPI
             {| schemas := registered; unresolvedRefs := queue |} =
  Some ({| schemas := registered; unresolvedRefs := [] |}, ([], Ok tt)).
Proof.
  induction 1 as [|next rest Hnext Hrest IH]; [reflexivity|].
  cbn [List.length]. remember (S (List.length rest)) as fuel.
  cbn [importNextSchema unresolvedRefs].
  rewrite (own_definition_nonempty _ _ Hnext), Hnext. cbn [negb].
  unfold shifted. cbn [schemas]. subst fuel. exact IH.
Qed.

Lemma held_In (l : list string) (ref : string) : held l ref = true <-> In ref l.
Proof.
  unfold held. rewrite existsb_exists. split.
  - intros (x & Hx & Heq). apply String.eqb_eq in Heq. now subst.
  - intros Hin. exists ref. split; [exact Hin | apply String.eqb_refl].
Qed.

Lemma filter_length_le {A} (p q : A -> bool) (l : list A) :
  (forall x, q x = true -> p x = true) ->
  List.length (filter q l) <= List.length (filter p l).
Proof.
  intros Hpq. induction l as [|x l IH]; cbn; [lia|].
  destruct (q x) eqn:Hq.
  - rewrite (Hpq x Hq). cbn. lia.
  - destruct (p x); cbn; lia.
Qed.

Lemma filter_length_lt {A} (p q : A -> bool) (l : list A) (a : A) :
  (forall x, q x = true -> p x = true) ->
  In a l -> p a = true -> q a = false ->
  List.length (filter q l) < List.length (filter p l).
Proof.
  intros Hpq Hin Hp Hq. induction l as [|x l IH]; [contradiction|].
  cbn. destruct Hin as [->|Hin].
  - rewrite Hp, Hq. cbn. pose proof (filter_length_le p q l Hpq). lia.
  - specialize (IH Hin). destruct (q x) eqn:Hqx.
    + rewrite (Hpq x Hqx). cbn. lia.
    + destruct (p x); cbn; lia.
Qed.

Lemma filter_length_all {A} (p : A -> bool) (l : list A) :
  List.length (filter p l) <= List.length l.
Proof. induction l as [|x l IH]; cbn; [lia|]. destruct (p x); cbn; lia. Qed.

Lemma filter_none {A} (p : A -> bool) (l : list A) :
  (forall x, In x l -> p x = false) -> filter p l = [].
Proof.
  induction l as [|x l IH]; intros Hall; cbn; [reflexivity|].
  rewrite (Hall x (or_introl eq_refl)). apply IH. intros y Hy. apply Hall. now right.
Qed.

Variable locators : list string.

Lemma untaken_le (taken : list string) (ref : string) :
  untaken locators (ref :: taken) <= untaken locators taken.
Proof.
  unfold untaken. apply filter_length_le.
  intros x. unfold held. cbn [existsb]. rewrite !negb_true_iff, orb_false_iff. tauto.
Qed.

Lemma untaken_lt (taken : list string) (ref : string) :
  stale locators taken ref = false ->
  untaken locators (ref :: taken) < untaken locators taken.
Proof.
  unfold stale. rewrite orb_false_iff, negb_false_iff. intros [Htaken Hweb].
  unfold untaken. apply filter_length_lt with (a := ref).
  - intros x. unfold held. cbn [existsb]. rewrite !negb_true_iff, orb_false_iff. tauto.
  - now apply held_In.
  - now rewrite Htaken.
  - unfold held. cbn [existsb]. now rewrite String.eqb_refl.
Qed.

(** Taking a stale identifier leaves the others as fresh or stale as they
    were. *)
Lemma stale_after_stale (taken : list string) (ref other : string) :
  stale locators taken ref = true ->
  stale locators (ref :: taken) other = stale locators taken other.
Proof.
  unfold stale, held. cbn [existsb]. intros Hstale.
  destruct (String.eqb other ref) eqn:Heq; [|reflexivity].
  apply String.eqb_eq in Heq. subst other. now rewrite Hstale.
Qed.

(** The worklist after a schema is added: what was left of it, without the
    references that are now registered, and the new references. *)
Lemma addSchema_worklist (v : Validator) (doc : value) :
  exists kept,
    unresolvedRefs (addSchema scan v doc) = (kept ++ new_refs scan v doc)%list /\
    forall p, List.length (filter p kept) <= List.length (filter p (unresolvedRefs v)).
Proof.
  unfold new_refs, addSchema. destruct (negb (truthy doc)).
  - exists (unresolvedRefs v). split; [now rewrite app_nil_r | intros p; lia].
  - destruct (scan doc) as [ids refs]. cbn [unresolvedRefs schemas snd].
    rewrite filter_app. eexists. split; [reflexivity|].
    intros p. induction (unresolvedRefs v) as [|x l IH]; cbn [filter]; [lia|].
    destruct (unregistered _ x); cbn [filter]; destruct (p x); cbn [List.length]; lia.
Qed.

(** A turn that goes on lowers the measure: the number of locators not yet
    taken, or else the number of stale identifiers in the worklist. *)
Lemma import_step_decreases (initialSchemaId : string) (schemaAPI : option Api) (c c' : Config) :
  introduces_within scan parses_as_URL web locators initialSchemaId schemaAPI c ->
  introduces_only_new scan parses_as_URL web initialSchemaId schemaAPI c ->
  import_step scan parses_as_URL web initialSchemaId schemaAPI c = Some c' ->
  untaken locators (cfg_taken c') < untaken locators (cfg_taken c) \/
  (untaken locators (cfg_taken c') <= untaken locators (cfg_taken c) /\
   stale_count locators c' < stale_count locators c).
Proof.
  unfold introduces_within, introduces_only_new, import_step, stale_count.
  destruct (unresolvedRefs (cfg_validator c)) as [|next rest]; [discriminate|].
  destruct (String.eqb next EmptyString); [discriminate|].
  destruct (stale locators (cfg_taken c) next) eqn:Hnext.
  2:{ intros _ _ Hstep. left.
      assert (Htaken : cfg_taken c' = next :: cfg_taken c).
      { destruct (negb (own_definition initialSchemaId next)).
        - destruct (resolveSchema parses_as_URL web (canonical_id next) schemaAPI)
            as [l [doc|e]]; [|discriminate]. now injection Hstep as <-.
        - now injection Hstep as <-. }
      rewrite Htaken. now apply untaken_lt. }
  cbn [filter]. rewrite Hnext. cbn [List.length].
  destruct (negb (own_definition initialSchemaId next)).
  - destruct (resolveSchema parses_as_URL web (canonical_id next) schemaAPI)
      as [l [doc|e]]; [|discriminate].
    intros Hwithin Hfresh [= <-]. cbn [cfg_validator cfg_taken]. right.
    split; [apply untaken_le|].
    destruct (addSchema_worklist (shifted (cfg_validator c) rest) doc) as (kept & -> & Hkept).
    rewrite filter_app, length_app.
    rewrite (filter_none (stale locators (next :: cfg_taken c))
               (new_refs scan (shifted (cfg_validator c) rest) doc)).
    + specialize (Hkept (stale locators (next :: cfg_taken c))).
      cbn [shifted unresolvedRefs] in Hkept.
      pose proof (filter_ext _ _ (fun y => stale_after_stale (cfg_taken c) next y Hnext))
        as Hsame.
      rewrite (Hsame kept), (Hsame rest) in Hkept. rewrite (Hsame kept).
      cbn [List.length]. lia.
    + intros x Hx. unfold stale. rewrite orb_false_iff, negb_false_iff. split.
      * destruct (held (next :: cfg_taken c) x) eqn:Hheld; [|reflexivity].
        apply held_In in Hheld. now apply Hfresh in Hheld.
      * apply held_In. exact (Hwithin x Hx).
  - intros _ _ [= <-]. cbn [cfg_validator cfg_taken shifted unresolvedRefs]. right.
    split; [apply untaken_le|].
    rewrite (filter_ext _ _ (fun y => stale_after_stale (cfg_taken c) next y Hnext) rest). lia.
Qed.

Lemma importNextSchema_terminates_from
    (initialSchemaId : string) (schemaAPI : option Api) (c0 : Config) :
  (forall c, import_reaches scan parses_as_URL web initialSchemaId schemaAPI c0 c ->
             introduces_within scan parses_as_URL web locators initialSchemaId schemaAPI c) ->
  (forall c, import_reaches scan parses_as_URL web initialSchemaId schemaAPI c0 c ->
             introduces_only_new scan parses_as_URL web initialSchemaId schemaAPI c) ->
  forall k d c,
    import_reaches scan parses_as_URL web initialSchemaId schemaAPI c0 c ->
    untaken locators (cfg_taken c) < k ->
    stale_count locators c < d ->
    exists fuel r,
      importNextSchema scan parses_as_URL web fuel initialSchemaId schemaAPI (cfg_validator c)
      = Some r.
Proof.
  intros Hwithin Hfresh. induction k as [|k IHk]; [intros d c _ Hk; lia|].
  induction d as [|d IHd]; intros c Hc Hk Hd; [lia|].
  pose proof (import_step_decreases initialSchemaId schemaAPI c) as Hdec.
  specialize (fun c' => Hdec c' (Hwithin c Hc) (Hfresh c Hc)).
  pose proof (reaches_step scan parses_as_URL web initialSchemaId schemaAPI c0 c) as Hnext.
  assert (Hgo : forall c',
             import_step scan parses_as_URL web initialSchemaId schemaAPI c = Some c' ->
             exists fuel r,
               importNextSchema scan parses_as_URL web fuel initialSchemaId schemaAPI
                                (cfg_validator c') = Some r).
  { intros c' Hstep. destruct (Hdec c' Hstep) as [Hlt|[Hle Hlt]].
    - apply (IHk (S (stale_count locators c')) c' (Hnext c' Hc Hstep)); lia.
    - apply (IHd c' (Hnext c' Hc Hstep)); lia. }
  clear Hdec Hnext. unfold import_step in Hgo.
  destruct (unresolvedRefs (cfg_validator c)) as [|next rest] eqn:Hqueue.
  { exists 1. eexists. cbn. rewrite Hqueue. reflexivity. }
  destruct (String.eqb next EmptyString) eqn:Hempty.
  { exists 1. eexists. cbn. rewrite Hqueue, Hempty. reflexivity. }
  destruct (negb (own_definition initialSchemaId next)) eqn:Hown.
  - destruct (resolveSchema parses_as_URL web (canonical_id next) schemaAPI)
      as [l [doc|e]] eqn:Hresolve.
    + destruct (Hgo _ eq_refl) as (fuel & [v' [l' r']] & Hrun).
      cbn [cfg_validator] in Hrun.
      exists (S fuel). eexists. cbn [importNextSchema].
      rewrite Hqueue, Hempty, Hown, Hresolve, Hrun. reflexivity.
    + exists 1. eexists. cbn. rewrite Hqueue, Hempty, Hown, Hresolve. reflexivity.
  - destruct (Hgo _ eq_refl) as (fuel & r & Hrun).
    cbn [cfg_validator] in Hrun.
    exists (S fuel), r. cbn [importNextSchema].
    rewrite Hqueue, Hempty, Hown. exact Hrun.
Qed.

Lemma initial_id_read (initialSchema id : value) :
  get_prop initialSchema "id" = Ok id ->
  initial_id initialSchema = if truthy id then to_string id else "/".
Proof. unfold initial_id. now intros ->. Qed.

(** C8, as the code has it: whatever the server answers, the import of a
    root schema terminates, with a result or an exception, whenever the
    references that the resolved schemas introduce all belong to a finite
    list of locators and no resolved schema leaves an identifier unresolved
    that has been taken from the worklist already; and for a root schema all
    of whose unresolved references fall under its own [$defs] it completes
    with an empty worklist and without a single call. *)
Theorem updateSchemaValidatorWithSchemas_terminates
    (validator : Validator) (initialSchema : value) (schemaAPI : option Api) :
  (references_within scan parses_as_URL web locators validator initialSchema schemaAPI ->
   no_reintroduction scan parses_as_URL web validator initialSchema schemaAPI ->
   exists fuel r,
     updateSchemaValidatorWithSchemas scan parses_as_URL web fuel validator initialSchema
                                      schemaAPI = Some r) /\
  (only_own_definitions scan validator initialSchema ->
   exists fuel v',
     updateSchemaValidatorWithSchemas scan parses_as_URL web fuel validator initialSchema
                                      schemaAPI = Some (v', ([], Ok tt)) /\
     unresolvedRefs v' = []).
Proof.
  unfold updateSchemaValidatorWithSchemas. split.
  - intros Hwithin Hfresh.
    destruct (get_prop initialSchema "id") as [id|e] eqn:Hid; [|exists 0; eauto].
    unfold references_within in Hwithin. unfold no_reintroduction in Hfresh.
    rewrite (initial_id_read _ _ Hid) in Hwithin, Hfresh.
    exact (importNextSchema_terminates_from _ schemaAPI _ Hwithin Hfresh
             (S (untaken locators (cfg_taken (initial_config scan validator initialSchema))))
             (S (stale_count locators (initial_config scan validator initialSchema)))
             (initial_config scan validator initialSchema)
             (reaches_start _ _ _ _ _ _) (Nat.lt_succ_diag_r _) (Nat.lt_succ_diag_r _)).
  - intros [[id Hid] Hown]. rewrite Hid. rewrite (initial_id_read _ _ Hid) in Hown.
    exists (S (List.length (unresolvedRefs (addSchema scan validator initialSchema)))).
    exists {| schemas := schemas (addSchema scan validator initialSchema);
              unresolvedRefs := [] |}.
    split; [|reflexivity].
    pose proof (importNextSchema_own_definitions _ schemaAPI
                  (schemas (addSchema scan validator initialSchema)) _ Hown) as Hrun.
    destruct (addSchema scan validator initialSchema) as [registered queue].
    exact Hrun.
Qed.

End SchemaImportFacts.

(** The configurations that the import of the first sample goes through. *)
Lemma demo_import_reaches (c : Config) :
  import_reaches demo_scan demo_parses_as_URL demo_web (initial_id demo_root_schema) None
                 (initial_config demo_scan demo_validator demo_root_schema) c ->
  introduces_only_new demo_scan demo_parses_as_URL demo_web (initial_id demo_root_schema) None c /\
  introduces_within demo_scan demo_parses_as_URL demo_web
    ["http://example.com/person"; "http://example.com/name"] (initial_id demo_root_schema) None c.
Proof.
  set (id := initial_id demo_root_schema).
  set (c0 := initial_config demo_scan demo_validator demo_root_schema).
  pose (c1 := {| cfg_validator :=
                   {| schemas := [("http://example.com/root", demo_root_schema);
                                  ("http://example.com/person",
                                   VObj [("id", VStr "http://example.com/person");
                                         ("refs", VArr [VStr "http://example.com/name"])])];
                      unresolvedRefs := ["http://example.com/name"] |};
                 cfg_taken := ["http://example.com/person"] |}).
  pose (c2 := {| cfg_validator :=
                   {| schemas := [("http://example.com/root", demo_root_schema);
                                  ("http://example.com/person",
                                   VObj [("id", VStr "http://example.com/person");
                                         ("refs", VArr [VStr "http://example.com/name"])]);
                                  ("http://example.com/name",
                                   VObj [("id", VStr "http://example.com/name");
                                         ("type", VStr "string")])];
                      unresolvedRefs := [] |};
                 cfg_taken := ["http://example.com/name"; "http://example.com/person"] |}).
  intros Hc.
  assert (Henum : c = c0 \/ c = c1 \/ c = c2).
  { induction Hc as [|c c' Hc IH Hstep]; [now left|].
    destruct IH as [->|[->| ->]]; vm_compute in Hstep.
    - injection Hstep as <-. right. now left.
    - injection Hstep as <-. right. now right.
    - discriminate Hstep. }
  destruct Henum as [->|[->| ->]]; split; vm_compute.
  - intros x [<-|[]] [H|[]]. discriminate H.
  - intros x [<-|[]]. right. now left.
  - intros x [].
  - intros x [].
  - exact I.
  - exact I.
Qed.

Lemma updateSchemaValidatorWithSchemas_witness :
  (exists fuel r,
     updateSchemaValidatorWithSchemas demo_scan demo_parses_as_URL demo_web fuel
       demo_validator demo_root_schema None = Some r) /\
  (exists fuel v',
     updateSchemaValidatorWithSchemas demo_scan demo_parses_as_URL demo_web fuel
       demo_validator demo_root_own_definitions None = Some (v', ([], Ok tt)) /\
     unresolvedRefs v' = []).
Proof.
  split.
  - apply (proj1 (updateSchemaValidatorWithSchemas_terminates demo_scan demo_parses_as_URL
                    demo_web ["http://example.com/person"; "http://example.com/name"]
                    demo_validator demo_root_schema None)).
    + intros c Hc. exact (proj2 (demo_import_reaches c Hc)).
    + intros c Hc. exact (proj1 (demo_import_reaches c Hc)).
  - apply (proj2 (updateSchemaValidatorWithSchemas_terminates demo_scan demo_parses_as_URL
                    demo_web [] demo_validator demo_root_own_definitions None)).
    split.
    + eexists. reflexivity.
    + repeat constructor.
Defined.

(** The run of the first sample: two documents are fetched, in the order in
    which they are referred to. *)
Example updateSchemaValidatorWithSchemas_run :
  option_map snd
    (updateSchemaValidatorWithSchemas demo_scan demo_parses_as_URL demo_web 3
       demo_validator demo_root_schema None) =
  Some ([EvFetch "http://example.com/person"; EvFetch "http://example.com/name"], Ok tt).
Proof. reflexivity. Qed.

(** A document that two others refer to is queued twice and fetched once: it
    is registered when its first turn comes. *)
Example updateSchemaValidatorWithSchemas_diamond :
  option_map snd
    (updateSchemaValidatorWithSchemas demo_scan demo_parses_as_URL demo_web_diamond 4
       demo_validator demo_root_diamond None) =
  Some ([EvFetch "http://example.com/a"; EvFetch "http://example.com/b";
         EvFetch "http://example.com/c"], Ok tt).
Proof. reflexivity. Qed.

(** *** A server that never runs out of references *)

Lemma append_assoc (a b c : string) : (a ++ b) ++ c = a ++ (b ++ c).
Proof. induction a as [|x a IH]; cbn; [reflexivity | now rewrite IH]. Qed.

Lemma length_append (a b : string) :
  String.length (a ++ b) = String.length a + String.length b.
Proof. induction a as [|x a IH]; cbn; [reflexivity | now rewrite IH]. Qed.

Lemma chain_locator_next (n : nat) : chain_locator n ++ "/next" = chain_locator (S n).
Proof. unfold chain_locator. cbn [chain_tail]. apply append_assoc. Qed.

Lemma chain_locator_length (n : nat) : String.length (chain_locator n) = 24 + 5 * n.
Proof.
  unfold chain_locator. rewrite length_append.
  change (String.length "http://example.com/chain") with 24. f_equal.
  induction n as [|n IH]; [reflexivity|].
  cbn [chain_tail]. rewrite length_append, IH. cbn [String.length]. lia.
Qed.

Lemma chain_locator_inj (m n : nat) : chain_locator m = chain_locator n -> m = n.
Proof.
  intros H. apply (f_equal String.length) in H. rewrite !chain_locator_length in H. lia.
Qed.

(** What a turn of the import does with a locator whose document refers to
    one further locator that is not registered. *)
Lemma chain_turn_of (registered : obj) (k x : string) :
  x <> k ->
  member x registered = VUndef ->
  let doc := VObj [("id", VStr k); ("refs", VArr [VStr x])] in
  addSchema demo_scan {| schemas := registered; unresolvedRefs := [] |} doc =
    {| schemas := obj_set k doc registered; unresolvedRefs := [x] |} /\
  new_refs demo_scan {| schemas := registered; unresolvedRefs := [] |} doc = [x].
Proof.
  intros Hne Hfree doc.
  assert (Hother : member x (obj_set k doc registered) = VUndef).
  { now rewrite member_obj_set_other. }
  assert (Hadd : addSchema demo_scan {| schemas := registered; unresolvedRefs := [] |} doc =
                 {| schemas := obj_set k doc registered; unresolvedRefs := [x] |}).
  { unfold addSchema, doc. cbn. unfold unregistered. fold doc. now rewrite Hother. }
  split; [exact Hadd|].
  unfold new_refs. rewrite Hadd. unfold doc at 1 3. cbn. unfold unregistered. fold doc.
  now rewrite Hother.
Qed.

Lemma chain_resolve (n : nat) :
  resolveSchema demo_parses_as_URL demo_web_chain (canonical_id (chain_locator n)) None =
  ([EvFetch (chain_locator n)],
   Ok (VObj [("id", VStr (chain_locator n)); ("refs", VArr [VStr (chain_locator (S n))])])).
Proof.
  unfold resolveSchema, fetchJSONFromUrl, demo_web_chain.
  rewrite <- chain_locator_next. reflexivity.
Qed.

Lemma chain_config_step (n : nat) (c : Config) :
  chain_config_at n c ->
  introduces_only_new demo_scan demo_parses_as_URL demo_web_chain
                      (initial_id demo_root_chain) None c /\
  exists c',
    import_step demo_scan demo_parses_as_URL demo_web_chain (initial_id demo_root_chain) None c
    = Some c' /\
    chain_config_at (S n) c'.
Proof.
  intros (Hqueue & Hfree & Htaken).
  assert (Hne : chain_locator (S n) <> chain_locator n).
  { intros H. apply chain_locator_inj in H. lia. }
  destruct (chain_turn_of (schemas (cfg_validator c)) (chain_locator n) (chain_locator (S n))
              Hne (Hfree (S n) (Nat.le_succ_diag_r n))) as [Hadd Hnew].
  assert (Hown : own_definition (initial_id demo_root_chain) (chain_locator n) = false)
    by reflexivity.
  assert (Hempty : String.eqb (chain_locator n) EmptyString = false) by reflexivity.
  unfold introduces_only_new, import_step.
  rewrite Hqueue, Hempty, Hown, chain_resolve. cbn [negb]. unfold shifted.
  rewrite Hadd, Hnew. split.
  - intros x [<-|[]] [H|H]; [now apply Hne|].
    destruct (Htaken _ H) as (i & Hi & Heq). apply chain_locator_inj in Heq. lia.
  - eexists. split; [reflexivity|]. unfold chain_config_at.
    cbn [cfg_validator cfg_taken schemas unresolvedRefs].
    split; [reflexivity|]. split.
    + intros m Hm. rewrite member_obj_set_other; [apply Hfree; lia|].
      intros H. apply chain_locator_inj in H. lia.
    + intros x [<-|H]; [exists n; split; [lia | reflexivity]|].
      destruct (Htaken _ H) as (i & Hi & Heq). exists i. split; [lia | exact Heq].
Qed.

Lemma chain_config_start :
  chain_config_at 0 (initial_config demo_scan demo_validator demo_root_chain).
Proof.
  split; [reflexivity|]. split.
  - intros m _. reflexivity.
  - intros x [].
Qed.

Lemma chain_config_reaches (c : Config) :
  import_reaches demo_scan demo_parses_as_URL demo_web_chain (initial_id demo_root_chain) None
                 (initial_config demo_scan demo_validator demo_root_chain) c ->
  exists n, chain_config_at n c.
Proof.
  induction 1 as [|c c' Hc [n Hn] Hstep].
  - exists 0. exact chain_config_start.
  - destruct (chain_config_step n c Hn) as (_ & c'' & Hstep' & Hn').
    rewrite Hstep in Hstep'. injection Hstep' as ->. now exists (S n).
Qed.

(** A turn that goes on ends when the rest of the import ends. *)
Lemma importNextSchema_after_turn
    (scan : value -> obj * list string) (parses_as_URL : string -> bool)
    (web : string -> outcome value) (initialSchemaId : string) (schemaAPI : option Api)
    (c c' : Config) (fuel : nat) :
  import_step scan parses_as_URL web initialSchemaId schemaAPI c = Some c' ->
  importNextSchema scan parses_as_URL web fuel initialSchemaId schemaAPI (cfg_validator c')
    = None ->
  importNextSchema scan parses_as_URL web (S fuel) initialSchemaId schemaAPI (cfg_validator c)
    = None.
Proof.
  unfold import_step. cbn [importNextSchema].
  destruct (unresolvedRefs (cfg_validator c)) as [|next rest]; [discriminate|].
  destruct (String.eqb next EmptyString); [discriminate|].
  destruct (negb (own_definition initialSchemaId next)).
  - destruct (resolveSchema parses_as_URL web (canonical_id next) schemaAPI) as [l [doc|e]];
      [|discriminate].
    intros [= <-]. cbn [cfg_validator]. now intros ->.
  - intros [= <-]. cbn [cfg_validator]. now intros ->.
Qed.

Lemma chain_import_endless (fuel : nat) :
  forall n c,
    chain_config_at n c ->
    importNextSchema demo_scan demo_parses_as_URL demo_web_chain fuel
                     (initial_id demo_root_chain) None (cfg_validator c) = None.
Proof.
  induction fuel as [|fuel IH]; intros n c Hn; [reflexivity|].
  destruct (chain_config_step n c Hn) as (_ & c' & Hstep & Hn').
  exact (importNextSchema_after_turn _ _ _ _ _ c c' fuel Hstep (IH (S n) c' Hn')).
Qed.

(** C8 does not hold as the specification words it: against a server that
    answers every locator with a document referring to one further locator,
    no resolved schema ever reintroduces an identifier, and the import of
    [demo_root_chain] still does not return, whatever the number of turns. *)
Lemma updateSchemaValidatorWithSchemas_endless_counterexample :
  no_reintroduction demo_scan demo_parses_as_URL demo_web_chain demo_validator
                    demo_root_chain None /\
  forall fuel,
    updateSchemaValidatorWithSchemas demo_scan demo_parses_as_URL demo_web_chain fuel
      demo_validator demo_root_chain None = None.
Proof.
  split.
  - intros c Hc. destruct (chain_config_reaches c Hc) as [n Hn].
    exact (proj1 (chain_config_step n c Hn)).
  - intros fuel.
    exact (chain_import_endless fuel 0 _ chain_config_start).
Qed.

(** * Further properties *)

(** ** Strings *)

Lemma prefix_app (p s : string) : String.prefix p (p ++ s) = true.
Proof.
  induction p as [|a p IH]; cbn.
  - now destruct s.
  - destruct (Ascii.ascii_dec a a) as [_|Hne]; [exact IH | now contradiction Hne].
Qed.

Lemma substring_all (s : string) : String.substring 0 (String.length s) s = s.
Proof. induction s as [|a s IH]; cbn; [reflexivity | now rewrite IH]. Qed.

Lemma slice_from_app (p s : string) : slice_from (String.length p) (p ++ s) = s.
Proof.
  unfold slice_from. induction p as [|a p IH]; cbn [String.length append].
  - rewrite Nat.sub_0_r. apply substring_all.
  - cbn [String.substring]. exact IH.
Qed.

(** ** Revocation evaluator *)

(** X1.  A status built by [buildDockCredentialStatus] from a registry id is
    accepted by [hasDockRevocation] exactly when the registry id is hex of the
    registry width, and the revocation query is then made under that very
    registry id; otherwise the format verdict is returned without a query. *)
Theorem buildDockCredentialStatus_round_trip
    (E : Env) (credential : obj) (registryId : string) (dockAPI : DockAPI) :
  status_of credential = buildDockCredentialStatus (VStr registryId) ->
  hasDockRevocation E (VObj credential) =
    Ok (VBool (isHexWithGivenByteSize E registryId RevRegIdByteSize)) /\
  checkRevocationStatus E (VObj credential) (Some {| dock := Some dockAPI |}) =
    if isHexWithGivenByteSize E registryId RevRegIdByteSize
    then ([EvGetIsRevoked registryId (blake2AsHex E (member "id" credential) 256)],
          revocation_verdict
            (getIsRevoked dockAPI registryId (blake2AsHex E (member "id" credential) 256)))
    else ([], Ok verdict_bad_format).
Proof.
  intros Hstatus.
  assert (Htype : forall a b : value, member "type" [("id", a); ("type", b)] = b)
    by reflexivity.
  assert (Hid : forall a b : value, member "id" [("id", a); ("type", b)] = a)
    by reflexivity.
  assert (Hformat : hasDockRevocation E (VObj credential) =
                    Ok (VBool (isHexWithGivenByteSize E registryId RevRegIdByteSize))).
  { unfold hasDockRevocation. rewrite status_read, Hstatus.
    unfold buildDockCredentialStatus. cbn [obind truthy negb get_prop to_string].
    rewrite Htype, Hid. cbn [strict_eq_str]. rewrite String.eqb_refl.
    cbn [negb method_startsWith obind].
    unfold starts_with. rewrite prefix_app. cbn [negb method_slice obind].
    now rewrite slice_from_app. }
  split; [exact Hformat|].
  unfold checkRevocationStatus. cbn [api_dock dock lift bind]. rewrite Hformat.
  destruct (isHexWithGivenByteSize E registryId RevRegIdByteSize); [|reflexivity].
  cbn [truthy negb]. rewrite status_read, Hstatus. unfold buildDockCredentialStatus.
  cbn [get_prop to_string]. rewrite Hid.
  cbn [method_slice]. rewrite slice_from_app.
  unfold getDockRevIdFromCredential. cbn [get_prop obind lift bind call app].
  change (RevEntryByteSize * 8) with 256.
  now destruct (getIsRevoked dockAPI _ _) as [[|]|e].
Qed.

Lemma buildDockCredentialStatus_round_trip_witness :
  hasDockRevocation demo_env (VObj demo_credential) = Ok (VBool true) /\
  checkRevocationStatus demo_env (VObj demo_credential) (Some {| dock := Some demo_node |}) =
    ([EvGetIsRevoked demo_registry "0xurn:cred:1"], Ok verdict_revoked).
Proof.
  exact (buildDockCredentialStatus_round_trip demo_env demo_credential demo_registry demo_node
           eq_refl).
Defined.

(** X2.  Whatever truthy value [hasDockRevocation] answers is [true], and the
    credential then has a status of the recognized type whose id is a string
    made of the registry qualifier and hex of the registry width: no other
    credential is ever taken as revocation-formatted. *)
Theorem hasDockRevocation_sound (E : Env) (credential : obj) (answer : value) :
  hasDockRevocation E (VObj credential) = Ok answer ->
  truthy answer = true ->
  answer = VBool true /\ exists id, revocation_formatted E credential id.
Proof.
  unfold hasDockRevocation, revocation_formatted. rewrite status_read. cbn [obind].
  destruct (truthy (status_of credential)) eqn:Hs; cbn [negb].
  2:{ intros [= <-] Hanswer. congruence. }
  rewrite (truthy_prop_of _ "type" Hs). cbn [obind].
  destruct (strict_eq_str (prop_of (status_of credential) "type") RevRegType) eqn:Ht;
    cbn [negb]; [|intros [= <-]; discriminate].
  rewrite (truthy_prop_of _ "id" Hs). cbn [obind].
  destruct (prop_of (status_of credential) "id") as [| |b|n|id|l|o] eqn:Hid;
    cbn [method_startsWith obind]; try discriminate.
  destruct (starts_with DockRevRegQualifier id) eqn:Hq; cbn [negb];
    [|intros [= <-]; discriminate].
  cbn [method_slice obind]. intros [= <-] Hhex. cbn [truthy] in Hhex.
  rewrite Hhex. split; [reflexivity|]. exists id. repeat split; assumption.
Qed.

Lemma hasDockRevocation_sound_witness :
  VBool true = VBool true /\
  exists id, revocation_formatted demo_env demo_credential id.
Proof.
  exact (hasDockRevocation_sound demo_env demo_credential (VBool true) eq_refl eq_refl).
Defined.

(** ** Credential verifier *)

(** X3.  When the signature verification fails, or when no revocation check
    is needed (no status, or the check not forced and no revocation API),
    [verifyCredential] answers the result of the signature verification and
    the only calls it has made are those of the schema step and the
    verification itself: the revocation service is not queried. *)
Theorem verifyCredential_without_revocation_query
    (E : Env) (credential : obj) (params : VerifiableParams) (credVer verified : value) :
  result (getAndValidateSchemaIfPresent E (VObj credential) (schemaApi params)) = Ok tt ->
  vcjs_verifyCredential E (VObj credential) (resolver params) (compactProof params) = Ok credVer ->
  get_prop credVer "verified" = Ok verified ->
  truthy verified = false \/
  isRevocationCheckNeeded (status_of credential) (forceRevocationCheck params)
                          (revocationApi params) = false ->
  verifyCredential E (VObj credential) params =
  ((calls (getAndValidateSchemaIfPresent E (VObj credential) (schemaApi params))
    ++ [EvVerifyCredential (VObj credential)])%list,
   Ok credVer).
Proof.
  intros Hschema Hvc Hget Hno. unfold verifyCredential.
  rewrite (M_eta (getAndValidateSchemaIfPresent E (VObj credential) (schemaApi params))).
  rewrite Hschema, Hvc. cbn [calls result fst snd bind call lift].
  rewrite Hget. rewrite status_read.
  destruct Hno as [Hv|Hneed].
  - rewrite Hv. cbn. reflexivity.
  - rewrite Hneed. destruct (truthy verified); reflexivity.
Qed.

Lemma verifyCredential_without_revocation_query_witness :
  verifyCredential demo_env (VObj demo_credential_unsigned) (demo_params_revocation demo_node) =
  ([EvVerifyCredential (VObj demo_credential_unsigned)], Ok demo_credVer_failed).
Proof.
  apply (verifyCredential_without_revocation_query demo_env demo_credential_unsigned
           (demo_params_revocation demo_node) demo_credVer_failed (VBool false)
           eq_refl eq_refl eq_refl).
  left. reflexivity.
Defined.

(** What [verifyCredential] answers once the schema step has passed. *)
Lemma verifyCredential_result
    (E : Env) (credential : obj) (params : VerifiableParams) (credVer verified : value) :
  result (getAndValidateSchemaIfPresent E (VObj credential) (schemaApi params)) = Ok tt ->
  vcjs_verifyCredential E (VObj credential) (resolver params) (compactProof params) = Ok credVer ->
  get_prop credVer "verified" = Ok verified ->
  result (verifyCredential E (VObj credential) params) =
  if truthy verified
     && isRevocationCheckNeeded (status_of credential) (forceRevocationCheck params)
                                (revocationApi params)
  then obind (result (checkRevocationStatus E (VObj credential) (revocationApi params)))
             (fun revResult =>
                obind (get_prop revResult "verified") (fun revVerified =>
                  if negb (truthy revVerified) then Ok revResult else Ok credVer))
  else Ok credVer.
Proof.
  intros Hschema Hvc Hget. unfold verifyCredential.
  rewrite result_bind, Hschema. cbn [obind].
  rewrite result_bind, result_call, Hvc. cbn [obind].
  rewrite result_bind, result_lift, Hget. cbn [obind].
  destruct (truthy verified); [|reflexivity].
  rewrite result_bind, result_lift, status_read. cbn [obind andb].
  destruct (isRevocationCheckNeeded _ _ _); [|reflexivity].
  rewrite result_bind.
  destruct (result (checkRevocationStatus E (VObj credential) (revocationApi params)))
    as [revResult|e]; [|reflexivity].
  cbn [obind]. rewrite result_bind, result_lift.
  destruct (get_prop revResult "verified") as [rv|e]; [|reflexivity].
  cbn [obind]. now destruct (negb (truthy rv)).
Qed.

(** X4.  [isVerifiedCredential] answers the boolean [false] for a credential
    whose signature verifies but whose revocation check returns a failing
    verdict, and the [verified] member of the signature verification when the
    check passes. *)
Theorem isVerifiedCredential_projection
    (E : Env) (credential : obj) (params : VerifiableParams) (credVer verified revResult : value) :
  result (getAndValidateSchemaIfPresent E (VObj credential) (schemaApi params)) = Ok tt ->
  vcjs_verifyCredential E (VObj credential) (resolver params) (compactProof params) = Ok credVer ->
  get_prop credVer "verified" = Ok verified ->
  truthy verified = true ->
  isRevocationCheckNeeded (status_of credential) (forceRevocationCheck params)
                          (revocationApi params) = true ->
  result (checkRevocationStatus E (VObj credential) (revocationApi params)) = Ok revResult ->
  result (isVerifiedCredential E (VObj credential) params) =
  if truthy (prop_of revResult "verified") then Ok verified else Ok (VBool false).
Proof.
  intros Hschema Hvc Hget Hver Hneed Hcheck. unfold isVerifiedCredential.
  rewrite result_bind, (verifyCredential_result E credential params credVer verified
                          Hschema Hvc Hget).
  rewrite Hver, Hneed, Hcheck. cbn [andb obind].
  destruct (checkRevocationStatus_verdict _ _ _ _ Hcheck) as [->|[->| ->]];
    cbn; now rewrite ?Hget.
Qed.

Lemma isVerifiedCredential_projection_witness :
  result (isVerifiedCredential demo_env (VObj demo_credential) (demo_params_revocation demo_node))
  = Ok (VBool false) /\
  result (isVerifiedCredential demo_env (VObj demo_credential)
            (demo_params_revocation demo_node_nothing_revoked))
  = Ok (VBool true).
Proof.
  split.
  - exact (isVerifiedCredential_projection demo_env demo_credential
             (demo_params_revocation demo_node) demo_credVer (VBool true) verdict_revoked
             eq_refl eq_refl eq_refl eq_refl eq_refl eq_refl).
  - exact (isVerifiedCredential_projection demo_env demo_credential
             (demo_params_revocation demo_node_nothing_revoked) demo_credVer (VBool true)
             verdict_not_revoked eq_refl eq_refl eq_refl eq_refl eq_refl eq_refl).
Defined.

(** ** Credential schemas *)

Lemma try_catch_rethrow {A} (m : M A) (f : error -> error) (e : error) :
  result (try_catch m (fun e' => throw (f e'))) = Throw e -> exists e', e = f e'.
Proof. destruct m as [l [a|e']]; cbn; [discriminate|]. intros [= <-]. eauto. Qed.

(** X5.  Whatever goes wrong in the schema step of a credential, a missing
    [dock] entry, the lookup of the schema, its parsing or the validation of a
    subject, reaches the caller as an [Error] whose message is [Only Dock
    schemas are supported as of now.] or begins with [Schema validation
    failed: ]; the errors of the validator and of the engine do not get
    through as they are. *)
Theorem getAndValidateSchemaIfPresent_errors
    (E : Env) (credential : obj) (schemaApi : option Api) (e : error) :
  result (getAndValidateSchemaIfPresent E (VObj credential) schemaApi) = Throw e ->
  exists msg,
    e = JsError msg /\
    (msg = "Only Dock schemas are supported as of now." \/
     starts_with "Schema validation failed: " msg = true).
Proof.
  unfold getAndValidateSchemaIfPresent.
  destruct schemaApi as [api|]; [|discriminate].
  rewrite result_bind, result_lift. cbn [get_prop obind].
  rewrite result_bind, result_lift. cbn [obind].
  destruct (truthy (member "credentialSubject" credential)
            && truthy (member "credentialSchema" credential)); [|discriminate].
  destruct (dock api) as [dockApi|].
  - intros H. apply try_catch_rethrow in H as [e' ->].
    eexists. split; [reflexivity|]. right. apply prefix_app.
  - cbn. intros [= <-]. eexists. split; [reflexivity|]. now left.
Qed.

Lemma getAndValidateSchemaIfPresent_errors_witness :
  exists msg,
    JsError "Schema validation failed: instance requires a property" = JsError msg /\
    (msg = "Only Dock schemas are supported as of now." \/
     starts_with "Schema validation failed: " msg = true).
Proof.
  exact (getAndValidateSchemaIfPresent_errors demo_env demo_credential_mismatch
           (Some {| dock := Some demo_node |}) _ eq_refl).
Defined.

(** X6.  The schema that [Schema.get] answers for a blob that parses as a
    JSON object carries the identifier it was asked for and the qualified
    author of the blob, whatever [id] and [author] the stored document states;
    its other members are those of the stored document, and the node is
    asked once. *)
Theorem Schema_get_overrides_id_and_author
    (E : Env) (id : value) (dockApi : DockAPI) (hexId : string)
    (author bytes : list Byte.byte) (stored : obj) :
  getHexIdentifierFromBlobID E id = Ok hexId ->
  blob_get dockApi hexId = Ok (author, bytes) ->
  JSON_parse E (u8aToString E bytes) = Ok (VObj stored) ->
  exists schema,
    Schema_get E id dockApi = ([EvBlobGet hexId], Ok (VObj schema)) /\
    member "id" schema = id /\
    member "author" schema = VStr (hexDIDToQualified E (u8aToHex E author)) /\
    forall k, k <> "id" -> k <> "author" -> member k schema = member k stored.
Proof.
  intros Hhex Hblob Hparse.
  exists (obj_set "author" (VStr (hexDIDToQualified E (u8aToHex E author)))
                  (obj_set "id" id stored)).
  split; [|split; [|split]].
  - unfold Schema_get. rewrite Hhex. cbn [lift bind app]. rewrite Hblob.
    cbn [call bind snd fst app]. now rewrite Hparse.
  - rewrite member_obj_set_other by discriminate. apply member_obj_set_same.
  - apply member_obj_set_same.
  - intros k Hid Hauthor. now rewrite !member_obj_set_other.
Qed.

Lemma Schema_get_overrides_id_and_author_witness :
  exists schema,
    Schema_get demo_env (VStr "blob:dock:5Schema") demo_node =
      ([EvBlobGet "5Schema"], Ok (VObj schema)) /\
    member "id" schema = VStr "blob:dock:5Schema" /\
    member "author" schema = VStr "did:dock:0x00" /\
    forall k, k <> "id" -> k <> "author" ->
              member k schema =
              member k [("type", VStr "object"); ("required", VArr [VStr "name"])].
Proof.
  exact (Schema_get_overrides_id_and_author demo_env (VStr "blob:dock:5Schema") demo_node
           "5Schema" [] (list_byte_of_string "{required:[name]}")
           [("type", VStr "object"); ("required", VArr [VStr "name"])]
           eq_refl eq_refl eq_refl).
Defined.

(** X7.  [Schema.get] reports a stored blob that does not parse, or that
    parses to a value that is not an object, as [Incorrect schema format: ...],
    after the one request to the node; a failure of that request itself is
    passed on as it is. *)
Theorem Schema_get_incorrect_format
    (E : Env) (id : value) (dockApi : DockAPI) (hexId : string) :
  getHexIdentifierFromBlobID E id = Ok hexId ->
  (forall e, blob_get dockApi hexId = Throw e ->
             Schema_get E id dockApi = ([EvBlobGet hexId], Throw e)) /\
  (forall author bytes e,
     blob_get dockApi hexId = Ok (author, bytes) ->
     JSON_parse E (u8aToString E bytes) = Throw e ->
     Schema_get E id dockApi =
       ([EvBlobGet hexId], Throw (JsError ("Incorrect schema format: " ++ error_to_string e)))) /\
  (forall author bytes parsed,
     blob_get dockApi hexId = Ok (author, bytes) ->
     JSON_parse E (u8aToString E bytes) = Ok parsed ->
     not_an_object parsed = true ->
     exists msg,
       Schema_get E id dockApi =
         ([EvBlobGet hexId],
          Throw (JsError ("Incorrect schema format: TypeError: " ++ msg)))).
Proof.
  intros Hhex. unfold Schema_get. rewrite Hhex. cbn [lift bind app].
  split; [|split].
  - intros e ->. reflexivity.
  - intros author bytes e -> Hparse. cbn [call bind snd fst app]. now rewrite Hparse.
  - intros author bytes parsed -> Hparse Hprim. cbn [call bind snd fst app].
    rewrite Hparse. destruct parsed; try discriminate Hprim; cbn; eexists; reflexivity.
Qed.

Lemma Schema_get_incorrect_format_witness :
  Schema_get demo_env (VStr "blob:dock:5Text")
             (demo_dock [] [("5Text", "not a schema")]) =
  ([EvBlobGet "5Text"],
   Throw (JsError "Incorrect schema format: Error: Unexpected token")).
Proof.
  exact (proj1 (proj2 (Schema_get_incorrect_format demo_env (VStr "blob:dock:5Text")
                         (demo_dock [] [("5Text", "not a schema")]) "5Text" eq_refl))
               [] (list_byte_of_string "not a schema") (JsError "Unexpected token")
               eq_refl eq_refl).
Defined.



(** ** Presentation verifier *)

(** X9.  When the envelope of a presentation does not verify,
    [verifyPresentation] answers the vc-js result as it is after that one
    call, and [isVerifiedPresentation] its [verified] member: the credentials
    of the presentation are not even read, and neither the revocation nor the
    schema service is consulted. *)
Theorem verifyPresentation_envelope_failure
    (E : Env) (presentation : value) (params : VerifiableParams) (presVer verified : value) :
  vcjs_verify E presentation (challenge params) (domain params)
              (resolver params) (compactProof params) = Ok presVer ->
  get_prop presVer "verified" = Ok verified ->
  truthy verified = false ->
  verifyPresentation E presentation params = ([EvVerifyPresentation presentation], Ok presVer) /\
  isVerifiedPresentation E presentation params = ([EvVerifyPresentation presentation], Ok verified).
Proof.
  intros Hvc Hget Hfalsy.
  assert (Hrun : verifyPresentation E presentation params =
                 ([EvVerifyPresentation presentation], Ok presVer)).
  { unfold verifyPresentation. rewrite Hvc. cbn [call bind lift]. rewrite Hget, Hfalsy.
    reflexivity. }
  split; [exact Hrun|].
  unfold isVerifiedPresentation. rewrite Hrun. cbn [bind lift]. rewrite Hget.
  reflexivity.
Qed.

Lemma verifyPresentation_envelope_failure_witness :
  verifyPresentation demo_env (VObj (obj_delete "proof" demo_presentation))
                     (demo_params_both demo_node) =
    ([EvVerifyPresentation (VObj (obj_delete "proof" demo_presentation))],
     Ok (VObj [("verified", VBool false);
               ("presentationResult", VObj [("proof", VUndef)])])) /\
  isVerifiedPresentation demo_env (VObj (obj_delete "proof" demo_presentation))
                         (demo_params_both demo_node) =
    ([EvVerifyPresentation (VObj (obj_delete "proof" demo_presentation))], Ok (VBool false)).
Proof.
  exact (verifyPresentation_envelope_failure demo_env
           (VObj (obj_delete "proof" demo_presentation)) (demo_params_both demo_node)
           _ (VBool false) eq_refl eq_refl eq_refl).
Defined.

(** ** Issuance *)

(** X10.  [issueCredential] hands vc-js a copy of the draft whose [issuer] is
    the [controller] of the key document, whatever issuer the draft stated,
    with every other member of the draft as it was, and a suite whose
    verification method is the [id] of the key document; for a key document
    of an unrecognized type it raises [Unknown key type ...] whatever vc-js
    would have answered. *)
Theorem issueCredential_sets_issuer
    (vcjs_issue : Suite -> value -> bool -> outcome value)
    (keyDoc credential : obj) (compactProof : bool) :
  (recognized_tag (member "type" keyDoc) = true ->
   exists suite cred,
     issueCredential vcjs_issue (VObj keyDoc) (VObj credential) compactProof =
       vcjs_issue suite (VObj cred) compactProof /\
     verificationMethod suite = member "id" keyDoc /\
     member "issuer" cred = member "controller" keyDoc /\
     forall k, k <> "issuer" -> member k cred = member k credential) /\
  (recognized_tag (member "type" keyDoc) = false ->
   issueCredential vcjs_issue (VObj keyDoc) (VObj credential) compactProof =
   Throw (JsError ("Unknown key type " ++ to_string (member "type" keyDoc) ++ "."))).
Proof.
  unfold recognized_tag, issueCredential, getSuiteFromKeyDoc. cbn [get_prop obind spread].
  split; intros H.
  - assert (Hissue : forall Cls,
               exists suite cred,
                 vcjs_issue {| suite_class := Cls;
                               suite_options :=
                                 obj_set "verificationMethod" (member "id" keyDoc) keyDoc |}
                            (VObj (obj_set "issuer" (member "controller" keyDoc) credential))
                            compactProof
                 = vcjs_issue suite (VObj cred) compactProof /\
                 verificationMethod suite = member "id" keyDoc /\
                 member "issuer" cred = member "controller" keyDoc /\
                 forall k, k <> "issuer" -> member k cred = member k credential).
    { intros Cls. eexists. eexists. split; [reflexivity|]. split; [|split].
      - apply member_obj_set_same.
      - apply member_obj_set_same.
      - intros k Hk. now apply member_obj_set_other. }
    destruct (strict_eq_str (member "type" keyDoc) EcdsaSecp256k1VerKeyName); [apply Hissue|].
    destruct (strict_eq_str (member "type" keyDoc) Ed25519VerKeyName); [apply Hissue|].
    destruct (strict_eq_str (member "type" keyDoc) Sr25519VerKeyName); [apply Hissue|].
    discriminate H.
  - apply orb_false_iff in H as [H H3]. apply orb_false_iff in H as [H1 H2].
    now rewrite H1, H2, H3.
Qed.

Lemma issueCredential_sets_issuer_witness :
  (exists suite cred,
     issueCredential demo_vcjs_issue (VObj demo_keyDoc) (VObj demo_draft) true =
       demo_vcjs_issue suite (VObj cred) true /\
     verificationMethod suite = VStr "did:dock:5Issuer#keys-1" /\
     member "issuer" cred = VStr "did:dock:5Issuer" /\
     forall k, k <> "issuer" -> member k cred = member k demo_draft) /\
  issueCredential demo_vcjs_issue (VObj demo_keyDoc_rsa) (VObj demo_draft) true =
  Throw (JsError "Unknown key type RsaVerificationKey2018.").
Proof.
  split.
  - exact (proj1 (issueCredential_sets_issuer demo_vcjs_issue demo_keyDoc demo_draft true)
                 eq_refl).
  - exact (proj2 (issueCredential_sets_issuer demo_vcjs_issue demo_keyDoc_rsa demo_draft true)
                 eq_refl).
Defined.

(** ** The [Schema] class with [get] *)

(** X11.  [setAuthor] accepts exactly the strings that start with [did:] or
    are hex of the blob id width; it then sets [author] to the string and
    leaves every other member as it was.  Anything else leaves no new
    object: a string is refused with an [Error] that names it, a value that
    is not a string with a [TypeError]. *)
Theorem setAuthor_accepts (E : Env) (this : obj) (did : value) :
  ((exists this', setAuthor E this did = Ok this') <->
   (exists d, did = VStr d /\
              (starts_with "did:" d = true \/
               isHexWithGivenByteSize E d DockBlobIdByteSize = true))) /\
  (forall this', setAuthor E this did = Ok this' ->
     member "author" this' = did /\
     forall k, k <> "author" -> member k this' = member k this) /\
  (forall d, did = VStr d ->
     starts_with "did:" d = false ->
     isHexWithGivenByteSize E d DockBlobIdByteSize = false ->
     setAuthor E this did =
     Throw (JsError ("Supplied author " ++ d ++ " is not a valid DID or 32 byte hex string"))).
Proof.
  unfold setAuthor. split; [|split].
  - split.
    + intros [this' H]. destruct did; cbn in H; try discriminate H.
      exists s. split; [reflexivity|].
      destruct (starts_with "did:" s); [now left|]. cbn [orb] in H.
      destruct (isHexWithGivenByteSize E s DockBlobIdByteSize); [now right | discriminate H].
    + intros (d & -> & [H|H]); cbn [method_startsWith obind]; rewrite H.
      * cbn [orb]. eauto.
      * rewrite orb_true_r. eauto.
  - intros this' H.
    assert (Hset : this' = obj_set "author" did this).
    { destruct (method_startsWith did "did:") as [isDid|e]; cbn [obind] in H; [|discriminate H].
      destruct (isDid || _); [now injection H as <- | discriminate H]. }
    subst this'. split; [apply member_obj_set_same|].
    intros k Hk. now apply member_obj_set_other.
  - intros d -> Hdid Hhex. cbn [method_startsWith obind to_string]. now rewrite Hdid, Hhex.
Qed.

Lemma setAuthor_accepts_witness :
  setAuthor demo_env [("id", VStr "blob:dock:5Schema")] (VStr "5Author") =
  Throw (JsError "Supplied author 5Author is not a valid DID or 32 byte hex string").
Proof.
  exact (proj2 (proj2 (setAuthor_accepts demo_env [("id", VStr "blob:dock:5Schema")]
                         (VStr "5Author")))
               "5Author" eq_refl eq_refl eq_refl).
Defined.

(** X12.  What [Schema.fromJSON] builds from a JSON object with a truthy [id]
    has that [id] and no members but [id], [schema] and [author]; [toJSON]
    gives it back unchanged, and [fromJSON] of that gives the same object
    again, whatever identifier would be generated. *)
Theorem fromJSON_toJSON_round_trip
    (E : Env) (json : obj) (generated : string) (schemaObj : obj) :
  truthy (member "id" json) = true ->
  fromJSON E (VObj json) generated = Ok schemaObj ->
  member "id" schemaObj = member "id" json /\
  (forall k, k <> "id" -> k <> "schema" -> k <> "author" -> member k schemaObj = VUndef) /\
  toJSON schemaObj = schemaObj /\
  forall generated', fromJSON E (VObj (toJSON schemaObj)) generated' = Ok schemaObj.
Proof.
  unfold fromJSON, Schema_new, toJSON. cbn [get_prop obind].
  remember (member "id" json) as id eqn:Eid.
  remember (member "schema" json) as schema eqn:Eschema.
  remember (member "author" json) as author eqn:Eauthor.
  clear Eid Eschema Eauthor json.
  intros Hid. rewrite Hid.
  assert (Hother : forall (k : string) (l : obj),
             k <> "id" -> k <> "schema" -> k <> "author" ->
             (l = [("id", id)] \/ l = [("id", id); ("schema", schema)] \/
              l = [("id", id); ("author", author)] \/
              l = [("id", id); ("schema", schema); ("author", author)]) ->
             member k l = VUndef).
  { intros k l H1 H2 H3 Hl. unfold member.
    apply String.eqb_neq in H1, H2, H3.
    destruct Hl as [->|[->|[->| ->]]]; cbn [lookup]; now rewrite ?H1, ?H2, ?H3. }
  assert (Hset : forall base l, setAuthor E base author = Ok l -> l = obj_set "author" author base).
  { intros base l H. unfold setAuthor in H.
    destruct (method_startsWith author "did:"); cbn [obind] in H; [|discriminate H].
    destruct (_ || _); [now injection H as <- | discriminate H]. }
  destruct (truthy schema) eqn:Hschema; destruct (truthy author) eqn:Hauthor;
    cbn [obj_set String.eqb Ascii.eqb Bool.eqb]; intros Hfrom;
    try (pose proof (Hset _ _ Hfrom) as Hl;
         cbn [obj_set String.eqb Ascii.eqb Bool.eqb] in Hl);
    try (injection Hfrom as Hl; symmetry in Hl);
    subst schemaObj;
    (split; [reflexivity|]);
    (split; [intros k H1 H2 H3; eapply Hother; eauto 6|]);
    (split; [reflexivity|]);
    intros generated';
    cbn [obj_delete String.eqb Ascii.eqb Bool.eqb get_prop obind];
    cbn [member lookup String.eqb Ascii.eqb Bool.eqb];
    rewrite ?Hid, ?Hschema, ?Hauthor; cbn [truthy obj_set String.eqb Ascii.eqb Bool.eqb];
    try exact Hfrom; reflexivity.
Qed.

Lemma fromJSON_toJSON_round_trip_witness :
  fromJSON demo_env (VObj demo_schema_json) "blob:dock:5Generated" =
    Ok (obj_delete "signature" demo_schema_json) /\
  toJSON (obj_delete "signature" demo_schema_json) = obj_delete "signature" demo_schema_json /\
  fromJSON demo_env (VObj (toJSON (obj_delete "signature" demo_schema_json)))
           "blob:dock:5Other" = Ok (obj_delete "signature" demo_schema_json).
Proof.
  split; [reflexivity|].
  destruct (fromJSON_toJSON_round_trip demo_env demo_schema_json "blob:dock:5Generated"
              (obj_delete "signature" demo_schema_json) eq_refl eq_refl)
    as (_ & _ & Hsame & Hagain).
  split; [exact Hsame | exact (Hagain "blob:dock:5Other")].
Defined.

(** X13.  [toBlob] serializes only a schema object that has both a schema and
    an author: a missing schema is reported first, then a missing author, and
    a blob that is returned holds the hex identifier of the object's [id],
    the canonical hex of its schema and the hex identifier of its author. *)
Theorem toBlob_needs_schema_and_author
    (E : Env) (canonical_hex : value -> string)
    (getHexIdentifierFromDID : value -> outcome string) (this : obj) :
  (truthy (member "schema" this) = false ->
   toBlob E canonical_hex getHexIdentifierFromDID this =
   Throw (JsError "Schema requires schema property to be serialized to blob")) /\
  (truthy (member "schema" this) = true -> truthy (member "author" this) = false ->
   toBlob E canonical_hex getHexIdentifierFromDID this =
   Throw (JsError "Schema requires author property to be serialized to blob")) /\
  (forall blob,
     toBlob E canonical_hex getHexIdentifierFromDID this = Ok blob ->
     truthy (member "schema" this) = true /\
     truthy (member "author" this) = true /\
     exists id author,
       getHexIdentifierFromBlobID E (member "id" this) = Ok id /\
       getHexIdentifierFromDID (member "author" this) = Ok author /\
       blob = [("id", VStr id); ("blob", VStr (canonical_hex (member "schema" this)));
               ("author", VStr author)]).
Proof.
  unfold toBlob. split; [|split].
  - now intros ->.
  - now intros -> ->.
  - intros blob.
    destruct (truthy (member "schema" this)); cbn [negb]; [|discriminate].
    destruct (truthy (member "author" this)); cbn [negb]; [|discriminate].
    destruct (getHexIdentifierFromBlobID E (member "id" this)) as [id|e]; cbn [obind];
      [|discriminate].
    destruct (getHexIdentifierFromDID (member "author" this)) as [author|e]; cbn [obind];
      [|discriminate].
    intros [= <-]. repeat split. exists id, author. now repeat split.
Qed.

Lemma toBlob_needs_schema_and_author_witness :
  toBlob demo_env (fun v => "0x" ++ to_string v) demo_getHexIdentifierFromDID
         [("id", VStr "blob:dock:5Schema"); ("author", VStr "did:dock:5Author")] =
    Throw (JsError "Schema requires schema property to be serialized to blob") /\
  toBlob demo_env (fun v => "0x" ++ to_string v) demo_getHexIdentifierFromDID
         [("id", VStr "blob:dock:5Schema"); ("schema", VObj [])] =
    Throw (JsError "Schema requires author property to be serialized to blob").
Proof.
  split.
  - exact (proj1 (toBlob_needs_schema_and_author demo_env _ demo_getHexIdentifierFromDID
                    [("id", VStr "blob:dock:5Schema"); ("author", VStr "did:dock:5Author")])
                 eq_refl).
  - exact (proj1 (proj2 (toBlob_needs_schema_and_author demo_env _ demo_getHexIdentifierFromDID
                           [("id", VStr "blob:dock:5Schema"); ("schema", VObj [])]))
                 eq_refl eq_refl).
Defined.

Lemma getJSONSchemaSpec_unfold
    (E : Env) (JSONSchema07 : value) (web : string -> outcome value) (json : obj) :
  getJSONSchemaSpec E JSONSchema07 web (VObj json) =
  let schemaUrl := member "$schema" json in
  if truthy schemaUrl then
    if strict_eq_str schemaUrl "http://json-schema.org/draft-07/schema"
       || strict_eq_str schemaUrl "http://json-schema.org/draft-07/schema#"
    then ([], Ok JSONSchema07)
    else ([EvFetch (to_string schemaUrl)],
          match web (to_string schemaUrl) with
          | Ok doc =>
              if typeof_object doc then Ok doc
              else match JSON_parse E (to_string doc) with
                   | Ok parsed => Ok parsed
                   | Throw _ => Throw (JsError "Cannot parse response as JSON")
                   end
          | Throw e => Throw e
          end)
  else ([], Throw (JsError "$schema not found in the given JSON")).
Proof.
  unfold getJSONSchemaSpec. cbn [get_prop lift bind app]. cbv zeta.
  destruct (truthy (member "$schema" json)); [|reflexivity].
  destruct (_ || _); [reflexivity|].
  cbn [call bind]. destruct (web _) as [doc|e]; [|reflexivity].
  destruct (typeof_object doc); [reflexivity|].
  cbn [lift try_catch]. now destruct (JSON_parse E (to_string doc)).
Qed.

(** X14.  [getJSONSchemaSpec] answers the stored specification for the two
    draft-07 locators without any request and refuses a document without a
    truthy [$schema] without any request.  For any other [$schema] it makes
    exactly one request, for that locator: a failure of the request is passed
    on, a reply that is an object, an array or [null] is answered as it is,
    and any other reply is parsed, the parsed value being the answer and a
    reply that does not parse being reported as [Cannot parse response as
    JSON]. *)
Theorem getJSONSchemaSpec_cases
    (E : Env) (JSONSchema07 : value) (web : string -> outcome value) (json : obj) :
  let schemaUrl := member "$schema" json in
  let answer := getJSONSchemaSpec E JSONSchema07 web (VObj json) in
  (schemaUrl = VStr "http://json-schema.org/draft-07/schema" \/
   schemaUrl = VStr "http://json-schema.org/draft-07/schema#" ->
   answer = ([], Ok JSONSchema07)) /\
  (truthy schemaUrl = false ->
   answer = ([], Throw (JsError "$schema not found in the given JSON"))) /\
  (truthy schemaUrl = true ->
   schemaUrl <> VStr "http://json-schema.org/draft-07/schema" ->
   schemaUrl <> VStr "http://json-schema.org/draft-07/schema#" ->
   calls answer = [EvFetch (to_string schemaUrl)] /\
   (forall e, web (to_string schemaUrl) = Throw e -> result answer = Throw e) /\
   (forall reply,
      web (to_string schemaUrl) = Ok reply -> typeof_object reply = true ->
      result answer = Ok reply) /\
   (forall reply,
      web (to_string schemaUrl) = Ok reply -> typeof_object reply = false ->
      (forall parsed, JSON_parse E (to_string reply) = Ok parsed ->
                      result answer = Ok parsed) /\
      (forall e, JSON_parse E (to_string reply) = Throw e ->
                 result answer = Throw (JsError "Cannot parse response as JSON")))).
Proof.
  intros schemaUrl answer. subst answer.
  rewrite getJSONSchemaSpec_unfold. cbv zeta. fold schemaUrl.
  split; [|split].
  - intros [-> | ->]; reflexivity.
  - now intros ->.
  - intros -> Hplain Hhash.
    assert (Hother : forall s, schemaUrl <> VStr s -> strict_eq_str schemaUrl s = false).
    { intros s Hne. destruct schemaUrl as [| |b|z|s'|l|o]; try reflexivity.
      cbn. destruct (String.eqb s' s) eqn:Heq; [|reflexivity].
      apply String.eqb_eq in Heq. now subst s'. }
    rewrite (Hother _ Hplain), (Hother _ Hhash). cbn [orb calls result fst snd].
    split; [reflexivity|]. split; [|split].
    + now intros e ->.
    + now intros reply -> ->.
    + intros reply -> ->. split.
      * now intros parsed ->.
      * now intros e ->.
Qed.

Lemma getJSONSchemaSpec_cases_witness :
  getJSONSchemaSpec demo_env demo_JSONSchema07 demo_web_specs
    (VObj [("$schema", VStr "http://json-schema.org/draft-07/schema#")]) =
    ([], Ok demo_JSONSchema07) /\
  getJSONSchemaSpec demo_env demo_JSONSchema07 demo_web_specs (VObj [("type", VStr "object")]) =
    ([], Throw (JsError "$schema not found in the given JSON")) /\
  calls (getJSONSchemaSpec demo_env demo_JSONSchema07 demo_web_specs
           (VObj [("$schema", VStr "http://example.com/spec")])) =
    [EvFetch "http://example.com/spec"] /\
  result (getJSONSchemaSpec demo_env demo_JSONSchema07 demo_web_specs
            (VObj [("$schema", VStr "http://example.com/spec")])) =
    Ok (VObj [("type", VStr "object")]) /\
  result (getJSONSchemaSpec demo_env demo_JSONSchema07 demo_web_specs
            (VObj [("$schema", VStr "http://example.com/spec.txt")])) = Ok (VObj []) /\
  result (getJSONSchemaSpec demo_env demo_JSONSchema07 demo_web_specs
            (VObj [("$schema", VStr "http://example.com/spec.html")])) =
    Throw (JsError "Cannot parse response as JSON") /\
  result (getJSONSchemaSpec demo_env demo_JSONSchema07 demo_web_specs
            (VObj [("$schema", VStr "http://example.com/nothing")])) =
    Throw (JsError "Network Error").
Proof.
  pose proof (fun url =>
                proj2 (proj2 (getJSONSchemaSpec_cases demo_env demo_JSONSchema07 demo_web_specs
                                [("$schema", VStr url)]))) as Hfetch.
  split; [|split; [|split; [|split; [|split; [|split]]]]].
  - apply (proj1 (getJSONSchemaSpec_cases demo_env demo_JSONSchema07 demo_web_specs
                    [("$schema", VStr "http://json-schema.org/draft-07/schema#")])).
    now right.
  - exact (proj1 (proj2 (getJSONSchemaSpec_cases demo_env demo_JSONSchema07 demo_web_specs
                           [("type", VStr "object")])) eq_refl).
  - apply (Hfetch "http://example.com/spec"); [reflexivity | discriminate | discriminate].
  - refine (proj1 (proj2 (proj2 (Hfetch "http://example.com/spec" eq_refl _ _)))
                  _ eq_refl eq_refl); discriminate.
  - refine (proj1 (proj2 (proj2 (proj2 (Hfetch "http://example.com/spec.txt" eq_refl _ _)))
                     _ eq_refl eq_refl) _ eq_refl); discriminate.
  - refine (proj2 (proj2 (proj2 (proj2 (Hfetch "http://example.com/spec.html" eq_refl _ _)))
                     _ eq_refl eq_refl) _ eq_refl); discriminate.
  - refine (proj1 (proj2 (Hfetch "http://example.com/nothing" eq_refl _ _)) _ eq_refl);
      discriminate.
Defined.

(** X15.  [setJSONSchema] stores a JSON schema only after the document
    validated against the specification that its [$schema] names: whenever it
    answers an object, that object is the receiver with [schema] set to the
    document, the specification was obtained and the validator accepted the
    document against it. *)
Theorem setJSONSchema_stores_validated
    (E : Env) (JSONSchema07 : value) (web : string -> outcome value)
    (this : obj) (json : value) (this' : obj) :
  result (setJSONSchema E JSONSchema07 web this json) = Ok this' ->
  this' = obj_set "schema" json this /\
  exists spec,
    result (getJSONSchemaSpec E JSONSchema07 web json) = Ok spec /\
    validate E json spec = Ok tt.
Proof.
  unfold setJSONSchema, validateSchema. rewrite !result_bind.
  destruct (result (getJSONSchemaSpec E JSONSchema07 web json)) as [spec|e]; cbn [obind];
    [|discriminate].
  rewrite result_call.
  destruct (validate E json spec) as [[]|e] eqn:Hvalid; cbn [obind]; [|discriminate].
  intros [= <-]. split; [reflexivity|]. exists spec. now split.
Qed.

Lemma setJSONSchema_stores_validated_witness :
  [("id", VStr "blob:dock:5Schema");
   ("schema", VObj [("$schema", VStr "http://json-schema.org/draft-07/schema#")])] =
  obj_set "schema" (VObj [("$schema", VStr "http://json-schema.org/draft-07/schema#")])
          [("id", VStr "blob:dock:5Schema")] /\
  exists spec,
    result (getJSONSchemaSpec demo_env demo_JSONSchema07 demo_web
              (VObj [("$schema", VStr "http://json-schema.org/draft-07/schema#")])) = Ok spec /\
    validate demo_env (VObj [("$schema", VStr "http://json-schema.org/draft-07/schema#")]) spec
    = Ok tt.
Proof.
  exact (setJSONSchema_stores_validated demo_env demo_JSONSchema07 demo_web
           [("id", VStr "blob:dock:5Schema")]
           (VObj [("$schema", VStr "http://json-schema.org/draft-07/schema#")])
           _ eq_refl).
Defined.

(** ** Schema import *)

(** X16.  Whenever [resolveSchema] makes a request, it is the one request
    for the identifier itself, and what that request answers is the answer.
    For an identifier that the URL parser accepts if it begins with
    [blob:dock:], as the parser of the platform does for every such string,
    there is nothing else to it, whatever schema API is given, or none: the
    identifier parses as a URL and is fetched, or it does not and [Schema id
    should begin with blob:dock:] is raised without a request.  The branch
    that looks a blob identifier up is then never taken: [Schema.getSchema]
    is not called, the [dock] entry is not read and [Only Dock schema support
    is present as of now.] is not raised. *)
Theorem resolveSchema_answer_is_fetched
    (parses_as_URL : string -> bool) (web : string -> outcome value)
    (schemaId : string) (schemaAPI : option Api) :
  (calls (resolveSchema parses_as_URL web schemaId schemaAPI) <> [] ->
   resolveSchema parses_as_URL web schemaId schemaAPI = ([EvFetch schemaId], web schemaId)) /\
  ((starts_with BlobQualifier schemaId = true -> parses_as_URL schemaId = true) ->
   resolveSchema parses_as_URL web schemaId schemaAPI =
   if parses_as_URL schemaId
   then ([EvFetch schemaId], web schemaId)
   else ([], Throw (JsError "Schema id should begin with blob:dock:"))).
Proof.
  unfold resolveSchema, fetchJSONFromUrl, getSchema. split.
  - destruct (parses_as_URL schemaId); [reflexivity|].
    destruct (starts_with BlobQualifier schemaId); cbn [negb]; [|now intros H; contradiction H].
    destruct schemaAPI as [[[dockAPI|]]|]; cbn; try (now intros H; contradiction H).
    destruct (String.eqb schemaId "invalid-format"); [now intros H; contradiction H|].
    destruct (String.eqb schemaId "invalid-id"); [now intros H; contradiction H|].
    reflexivity.
  - intros Hblob.
    destruct (parses_as_URL schemaId); [reflexivity|].
    destruct (starts_with BlobQualifier schemaId); [|reflexivity].
    discriminate (Hblob eq_refl).
Qed.

Lemma resolveSchema_answer_is_fetched_witness :
  resolveSchema demo_parses_as_URL demo_web "blob:dock:5Schema" (Some {| dock := None |}) =
    ([EvFetch "blob:dock:5Schema"], Throw (JsError "Network Error")) /\
  resolveSchema demo_parses_as_URL demo_web "5Schema" None =
    ([], Throw (JsError "Schema id should begin with blob:dock:")) /\
  resolveSchema demo_parses_as_URL demo_web "http://example.com/name" None =
    ([EvFetch "http://example.com/name"], demo_web "http://example.com/name").
Proof.
  split; [|split].
  - exact (proj2 (resolveSchema_answer_is_fetched demo_parses_as_URL demo_web
                    "blob:dock:5Schema" (Some {| dock := None |})) (fun _ => eq_refl)).
  - refine (proj2 (resolveSchema_answer_is_fetched demo_parses_as_URL demo_web "5Schema" None)
                  _).
    discriminate.
  - refine (proj1 (resolveSchema_answer_is_fetched demo_parses_as_URL demo_web
                     "http://example.com/name" None) _).
    discriminate.
Defined.





(** ** The revocation module *)

(** X18.  [getRegistryDetail] answers a registry and a number exactly when the
    node holds, under the identifier, a tuple of exactly that registry and
    that block number; for an identifier the node does not hold it raises
    [Could not find revocation registry: <id>], and with it
    [getRevocationRegistry] and [getBlockNoForLastChangeToRegistry]. *)
Theorem getRegistryDetail_answers
    (query_registries : string -> outcome (option (list value))) (registryID : string) :
  (forall registry lastModified,
     getRegistryDetail query_registries registryID = Ok (registry, lastModified) <->
     exists n, lastModified = VNum n /\
               query_registries registryID = Ok (Some [registry; VNum n])) /\
  (query_registries registryID = Ok None ->
   let notFound := JsError ("Could not find revocation registry: " ++ registryID) in
   getRegistryDetail query_registries registryID = Throw notFound /\
   getRevocationRegistry query_registries registryID = Throw notFound /\
   getBlockNoForLastChangeToRegistry query_registries registryID = Throw notFound).
Proof.
  unfold getRevocationRegistry, getBlockNoForLastChangeToRegistry, getRegistryDetail.
  split.
  - intros registry lastModified. split.
    + destruct (query_registries registryID) as [[respTuple|]|e]; cbn [obind]; try discriminate.
      destruct respTuple as [|a [|b [|c rest]]]; cbn [List.length Nat.eqb]; try discriminate.
      cbn [nth]. destruct b; cbn; try discriminate.
      intros [= <- <-]. eauto.
    + intros (n & -> & ->). reflexivity.
  - intros ->. cbn. auto.
Qed.

Lemma getRegistryDetail_answers_witness :
  getRegistryDetail demo_query_registries "0xmissing" =
    Throw (JsError "Could not find revocation registry: 0xmissing") /\
  getBlockNoForLastChangeToRegistry demo_query_registries "0xmissing" =
    Throw (JsError "Could not find revocation registry: 0xmissing").
Proof.
  destruct (proj2 (getRegistryDetail_answers demo_query_registries "0xmissing") eq_refl)
    as (Hdetail & _ & Hblock).
  split; [exact Hdetail | exact Hblock].
Defined.

(** X19.  [revokeCredential] and [unrevokeCredential] build, for a registry
    the node holds, an extrinsic whose payload names that registry, the one
    revocation id and the block in which the node says the registry was last
    changed, with a proof that is the signature of the keys over the
    serialization of that very payload, as [Revoke] or as [Unrevoke]; for a
    registry the node does not hold they raise and build nothing. *)
Theorem revokeCredential_signs_its_payload
    (query_registries : string -> outcome (option (list value)))
    (getStateChange : string -> value -> list Byte.byte)
    (didKeys : DidKeys) (registryId revId : string) :
  (forall registry n,
     query_registries registryId = Ok (Some [registry; VNum n]) ->
     let payload :=
       VObj [("registry_id", VStr registryId); ("revoke_ids", VArr [VStr revId]);
             ("last_modified", VNum n)] in
     revokeCredential query_registries getStateChange didKeys registryId revId =
       Ok {| tx_call := "revoke";
             tx_args := [payload; didKeys (getStateChange "Revoke" payload)] |} /\
     unrevokeCredential query_registries getStateChange didKeys registryId revId =
       Ok {| tx_call := "unrevoke";
             tx_args := [payload; didKeys (getStateChange "Unrevoke" payload)] |}) /\
  (query_registries registryId = Ok None ->
   revokeCredential query_registries getStateChange didKeys registryId revId =
     Throw (JsError ("Could not find revocation registry: " ++ registryId)) /\
   unrevokeCredential query_registries getStateChange didKeys registryId revId =
     Throw (JsError ("Could not find revocation registry: " ++ registryId))).
Proof.
  unfold revokeCredential, unrevokeCredential, updateRevReg,
    getBlockNoForLastChangeToRegistry, getRegistryDetail.
  split.
  - intros registry n ->. cbn. split; reflexivity.
  - intros ->. cbn. split; reflexivity.
Qed.

Lemma revokeCredential_signs_its_payload_witness :
  revokeCredential demo_query_registries demo_getStateChange demo_didKeys
                   demo_registry "0xurn:cred:1" =
  Ok {| tx_call := "revoke";
        tx_args :=
          [VObj [("registry_id", VStr demo_registry); ("revoke_ids", VArr [VStr "0xurn:cred:1"]);
                 ("last_modified", VNum 42)];
           VObj [("0xcontroller", VStr ("Revoke:" ++ demo_registry))]] |} /\
  unrevokeCredential demo_query_registries demo_getStateChange demo_didKeys
                     "0xmissing" "0xurn:cred:1" =
  Throw (JsError "Could not find revocation registry: 0xmissing").
Proof.
  split.
  - exact (proj1 (proj1 (revokeCredential_signs_its_payload demo_query_registries
                           demo_getStateChange demo_didKeys demo_registry "0xurn:cred:1")
                        _ 42%Z eq_refl)).
  - exact (proj2 (proj2 (revokeCredential_signs_its_payload demo_query_registries
                           demo_getStateChange demo_didKeys "0xmissing" "0xurn:cred:1")
                        eq_refl)).
Defined.

(** The check of a formatted credential against a node. *)
Lemma checkRevocationStatus_formatted
    (E : Env) (credential : obj) (id : string) (dockAPI : DockAPI) :
  revocation_formatted E credential id ->
  checkRevocationStatus E (VObj credential) (Some {| dock := Some dockAPI |}) =
  ([EvGetIsRevoked (slice_from (String.length DockRevRegQualifier) id)
                   (blake2AsHex E (member "id" credential) 256)],
   revocation_verdict
     (getIsRevoked dockAPI (slice_from (String.length DockRevRegQualifier) id)
                   (blake2AsHex E (member "id" credential) 256))).
Proof.
  intros Hf. unfold checkRevocationStatus. cbn [api_dock dock lift bind].
  rewrite (hasDockRevocation_formatted E credential id Hf).
  destruct Hf as (Hs & Ht & Hid & Hq & Hhex).
  simpl. fold (status_of credential). rewrite (truthy_prop_of _ "id" Hs), Hid. simpl.
  destruct (getIsRevoked dockAPI _ _) as [[|]|e]; reflexivity.
Qed.

(** X20.  With the revocation module as the [dock] revocation API, a
    formatted credential is reported revoked exactly when the node holds an
    entry under the registry id of its status and the hash of its id, and not
    revoked when the node holds none; a failure of the query is raised. *)
Theorem checkRevocationStatus_over_module
    (E : Env) (query_revocations : string -> string -> outcome (option value))
    (blob_get : string -> outcome (list Byte.byte * list Byte.byte))
    (credential : obj) (id : string) :
  revocation_formatted E credential id ->
  let registryId := slice_from (String.length DockRevRegQualifier) id in
  let revokeId := blake2AsHex E (member "id" credential) 256 in
  let answer :=
    result (checkRevocationStatus E (VObj credential)
              (Some {| dock := Some (module_dock query_revocations blob_get) |})) in
  (answer = Ok verdict_revoked <->
   exists entry, query_revocations registryId revokeId = Ok (Some entry)) /\
  (answer = Ok verdict_not_revoked <-> query_revocations registryId revokeId = Ok None) /\
  (forall e, answer = Throw e <-> query_revocations registryId revokeId = Throw e).
Proof.
  intros Hf registryId revokeId answer. subst answer.
  rewrite (checkRevocationStatus_formatted E credential id _ Hf).
  fold registryId. fold revokeId.
  cbn [result snd module_dock getIsRevoked]. unfold module_getIsRevoked.
  destruct (query_revocations registryId revokeId) as [[entry|]|e]; cbn.
  - split; [split; eauto | split; [split; discriminate | intros e0; split; discriminate]].
  - split; [split; [discriminate | intros [entry H]; discriminate H] |].
    split; [split; reflexivity | intros e0; split; discriminate].
  - split; [split; [discriminate | intros [entry H]; discriminate H] |].
    split; [split; discriminate | intros e0; split; congruence].
Qed.

Lemma checkRevocationStatus_over_module_witness :
  result (checkRevocationStatus demo_env (VObj demo_credential)
            (Some {| dock := Some (module_dock demo_query_revocations demo_blob_get) |}))
  = Ok verdict_revoked.
Proof.
  apply (proj1 (checkRevocationStatus_over_module demo_env demo_query_revocations demo_blob_get
                  demo_credential ("rev-reg:dock:" ++ demo_registry)
                  (conj eq_refl (conj eq_refl (conj eq_refl (conj eq_refl eq_refl)))))).
  exists VNull. reflexivity.
Defined.

(** ** The DID module *)

(** X21.  No extrinsic of the DID module is built for an identifier that is
    not hex of the DID width: [new] needs both the DID and the controller to
    be, [updateKey] the DID and the controller if one is given, [remove] the
    DID; otherwise the string [DID identifier must be 32 bytes] is thrown. *)
Theorem DIDModule_validates_identifiers
    (isHex : value -> nat -> bool) (did controller public_key signature : value) :
  (forall tx, DIDModule_new isHex did controller public_key = inr tx ->
     isHex did DockDIDByteSize = true /\ isHex controller DockDIDByteSize = true) /\
  (forall tx, updateKey isHex did signature public_key controller = inr tx ->
     isHex did DockDIDByteSize = true /\
     (truthy controller = false \/ isHex controller DockDIDByteSize = true)) /\
  (forall tx, DIDModule_remove isHex did signature = inr tx ->
     isHex did DockDIDByteSize = true) /\
  (isHex did DockDIDByteSize = false ->
   DIDModule_new isHex did controller public_key
     = inl (ThrownString "DID identifier must be 32 bytes") /\
   updateKey isHex did signature public_key controller
     = inl (ThrownString "DID identifier must be 32 bytes") /\
   DIDModule_remove isHex did signature
     = inl (ThrownString "DID identifier must be 32 bytes")).
Proof.
  unfold DIDModule_new, updateKey, DIDModule_remove, validateDockDIDIdentifier.
  split; [|split; [|split]].
  - intros tx. destruct (isHex did DockDIDByteSize); cbn; [|discriminate].
    destruct (isHex controller DockDIDByteSize); cbn; [auto | discriminate].
  - intros tx. destruct (isHex did DockDIDByteSize); cbn; [|discriminate].
    destruct (truthy controller); [|auto].
    destruct (isHex controller DockDIDByteSize); cbn; [auto | discriminate].
  - intros tx. destruct (isHex did DockDIDByteSize); cbn; [auto | discriminate].
  - intros ->. cbn. auto.
Qed.

Lemma DIDModule_validates_identifiers_witness :
  demo_isHex_value (VStr demo_did) DockDIDByteSize = true /\
  (truthy VUndef = false \/ demo_isHex_value VUndef DockDIDByteSize = true).
Proof.
  exact (proj1 (proj2 (DIDModule_validates_identifiers demo_isHex_value (VStr demo_did) VUndef
                         (VStr "0xkey") (VStr "0xsig")))
               _ eq_refl).
Defined.

(** X22.  [getDocument] answers a document exactly for a DID the node holds.
    The document is identified by [did:dock:<did>], has one key, named
    [<id>#keys-1] and controlled by the qualified controller of the node's
    entry, and lists exactly that key as authentication method; for a DID the
    node does not hold the string [Could not find DID: <did>] is thrown. *)
Theorem getDocument_answers
    (query_dids : string -> outcome (option (option (KeyDetail * Z)))) (did : string) :
  (forall doc,
     getDocument query_dids did = inr doc ->
     exists detail block key,
       query_dids did = Ok (Some (Some (detail, block))) /\
       prop_of doc "id" = VStr ("did:dock:" ++ did) /\
       prop_of doc "publicKey" = VArr [key] /\
       prop_of key "id" = VStr ("did:dock:" ++ did ++ "#keys-1") /\
       prop_of key "controller" = VStr ("did:dock:" ++ controller detail) /\
       prop_of doc "authentication" = VArr [VStr ("did:dock:" ++ did ++ "#keys-1")]) /\
  (forall detail block,
     query_dids did = Ok (Some (Some (detail, block))) ->
     exists doc, getDocument query_dids did = inr doc) /\
  (query_dids did = Ok (Some None) ->
   getDocument query_dids did = inl (ThrownString ("Could not find DID: " ++ did))) /\
  (query_dids did = Ok None ->
   getDocument query_dids did = inl (ThrownString "Got null response")).
Proof.
  unfold getDocument. split; [|split; [|split]].
  - intros doc. destruct (query_dids did) as [[[[detail block]|]|]|e]; try discriminate.
    destruct (public_key detail) as [key|key|key]; intros [= <-];
      exists detail, block; eexists; repeat split.
  - intros detail block ->. destruct (public_key detail); eexists; reflexivity.
  - now intros ->.
  - now intros ->.
Qed.

Lemma getDocument_answers_witness :
  (exists doc, getDocument demo_query_dids demo_did = inr doc) /\
  getDocument demo_query_dids "0xmissing" = inl (ThrownString "Could not find DID: 0xmissing").
Proof.
  split.
  - exact (proj1 (proj2 (getDocument_answers demo_query_dids demo_did)) _ _ eq_refl).
  - exact (proj1 (proj2 (proj2 (getDocument_answers demo_query_dids "0xmissing"))) eq_refl).
Defined.
